(** * parse_pokemon_map: a shallow embedding of [scripts/parse_pokemon_map.py]

    The script reads a TypeScript file, removes its block comments, walks the
    remaining lines with a two-state machine (outside / inside a multi-line
    block) and collects, for every quoted numeric key, the list of
    [['CODE', 'NAME']] pairs that follows it.

    Text is modelled by [string]; a character is read as a code point in the
    range U+0000 .. U+00FF.  On that range the classifications used by
    Python's [str] methods and by the [re] module are the ones written out
    below.

    The embedding starts from the text [raw] that [path.read_text] returns
    and ends with the dictionary that [parse_typescript_map] returns, and it
    covers [summarize] and the sample listing of [main].  Reading the file,
    the command line and the JSON output are left out. *)

From Stdlib Require Import Strings.String Strings.Ascii Lists.List.
From Stdlib Require Import Arith.Arith Bool.Bool Lia.
From Stdlib Require Import NArith.NArith ZArith.ZArith.
From Stdlib Require Import Sorting.Permutation Sorting.Sorted.
Import ListNotations.

Local Open Scope list_scope.
Local Open Scope string_scope.

(** ** Characters *)

Module Chr.

Definition LF : ascii := "010"%char.
Definition CR : ascii := "013"%char.

(** [str.isspace] on one character, which is also the class [\s] of a
    [str] pattern: U+0009..U+000D, U+001C..U+0020, U+0085, U+00A0. *)
Definition isspace (c : ascii) : bool :=
  let n := nat_of_ascii c in
  (((9 <=? n) && (n <=? 13)) || ((28 <=? n) && (n <=? 32))
   || (n =? 133) || (n =? 160))%nat.

(** The line boundaries of [str.splitlines]: LF, VT, FF, CR, FS, GS, RS
    and NEL (CR LF counts as one boundary, see [splitlines]). *)
Definition islinebreak (c : ascii) : bool :=
  let n := nat_of_ascii c in
  (((10 <=? n) && (n <=? 13)) || ((28 <=? n) && (n <=? 30))
   || (n =? 133))%nat.

(** The class [\d] of a [str] pattern, on the code points of the model:
    the digits 0 to 9.  Beyond U+00FF the class holds the decimal digits of
    other scripts as well; a text with such a character is not a [string]
    here. *)
Definition isdigit (c : ascii) : bool :=
  let n := nat_of_ascii c in ((48 <=? n) && (n <=? 57))%nat.

(** The one-character class [c] and the negated class [[^c]]. *)
Definition only (c d : ascii) : bool := Ascii.eqb d c.
Definition except (c d : ascii) : bool := negb (Ascii.eqb d c).

End Chr.

(** ** The [str] methods the script calls *)

Module Str.

Fixpoint drop (n : nat) (s : string) : string :=
  match n, s with
  | S k, String _ r => drop k r
  | _, _ => s
  end.

Fixpoint take (n : nat) (s : string) : string :=
  match n, s with
  | S k, String c r => String c (take k r)
  | _, _ => EmptyString
  end.

(** [s.startswith(p)] *)
Fixpoint startswith (s p : string) {struct p} : bool :=
  match p, s with
  | EmptyString, _ => true
  | String a p', String c r => Ascii.eqb c a && startswith r p'
  | String _ _, EmptyString => false
  end.

(** [s.endswith(p)] *)
Fixpoint endswith (s p : string) : bool :=
  String.eqb s p ||
  match s with
  | String _ r => endswith r p
  | EmptyString => false
  end.

(** [p in s] *)
Fixpoint contains (s p : string) : bool :=
  startswith s p ||
  match s with
  | String _ r => contains r p
  | EmptyString => false
  end.

(** [s.count(c)] for a one-character [c] *)
Fixpoint count (c : ascii) (s : string) : nat :=
  match s with
  | EmptyString => 0
  | String d r => (if Ascii.eqb d c then 1 else 0) + count c r
  end.

(** Longest prefix of characters satisfying [p], and what follows it. *)
Fixpoint span (p : ascii -> bool) (s : string) : string * string :=
  match s with
  | String c r =>
      if p c then let (a, b) := span p r in (String c a, b)
      else (EmptyString, s)
  | EmptyString => (EmptyString, EmptyString)
  end.

Fixpoint lstrip_by (p : ascii -> bool) (s : string) : string :=
  match s with
  | String c r => if p c then lstrip_by p r else s
  | EmptyString => EmptyString
  end.

Fixpoint rstrip_by (p : ascii -> bool) (s : string) : string :=
  match s with
  | EmptyString => EmptyString
  | String c r =>
      match rstrip_by p r with
      | EmptyString => if p c then EmptyString else String c EmptyString
      | r' => String c r'
      end
  end.

(** [s.strip()] *)
Definition strip (s : string) : string :=
  lstrip_by Chr.isspace (rstrip_by Chr.isspace s).

(** [s.rstrip(",")] *)
Definition rstrip_commas (s : string) : string :=
  rstrip_by (Chr.only ",") s.

(** [s.splitlines()]: the lines of [s] without their terminators; a
    terminator at the very end opens no further line. *)
Fixpoint splitlines (s : string) : list string :=
  match s with
  | EmptyString => []
  | String c r =>
      if Chr.islinebreak c then
        EmptyString ::
        match r with
        | String d r' =>
            if Ascii.eqb c Chr.CR && Ascii.eqb d Chr.LF
            then splitlines r' else splitlines r
        | EmptyString => []
        end
      else
        match splitlines r with
        | [] => [String c EmptyString]
        | l :: ls => String c l :: ls
        end
  end.

Fixpoint repeat (c : ascii) (n : nat) : string :=
  match n with
  | 0 => EmptyString
  | S k => String c (repeat c k)
  end.

End Str.

(** ** Scanning a text for the matches of a pattern

    [re.sub] and [re.findall] walk the text from left to right: at each
    position the pattern is tried; a match is taken and the walk resumes
    right after it, otherwise the character is passed over.  An anchored
    matcher returns its result and the number of characters it matched;
    the patterns of this script never match the empty string. *)

Module Re.

Section Scan.
Context {A : Type}.
Variable m : string -> option (A * nat).

Fixpoint scan_from (skip : nat) (s : string) : list (A + ascii) :=
  match s with
  | EmptyString => []
  | String c r =>
      match skip with
      | S k => scan_from k r
      | 0 =>
          match m s with
          | Some (a, n) => inl a :: scan_from (pred n) r
          | None => inr c :: scan_from 0 r
          end
      end
  end.

Definition scan (s : string) : list (A + ascii) := scan_from 0 s.

(** The matches, in order: [re.findall]. *)
Fixpoint matches (l : list (A + ascii)) : list A :=
  match l with
  | [] => []
  | inl a :: l' => a :: matches l'
  | inr _ :: l' => matches l'
  end.

(** The text outside the matches: [re.sub] with an empty replacement. *)
Fixpoint unmatched (l : list (A + ascii)) : string :=
  match l with
  | [] => EmptyString
  | inl _ :: l' => unmatched l'
  | inr c :: l' => String c (unmatched l')
  end.

Definition findall (s : string) : list A := matches (scan s).
Definition sub_empty (s : string) : string := unmatched (scan s).
End Scan.

End Re.

(** ** The patterns of the script, as anchored matchers *)

(** Offset of the first occurrence of the terminator in [s]. *)
Fixpoint find_close (s : string) : option nat :=
  match s with
  | EmptyString => None
  | String _ r =>
      if Str.startswith s "*/" then Some 0 else option_map S (find_close r)
  end.

(** The pattern [/\*[\s\S]*?\*/] of line 26: an opener, then as few
    characters of any kind as possible, then a terminator; so the match ends
    with the first terminator that begins after the opener.  The result is
    the matched text and its length. *)
Definition COMMENT_PATTERN (s : string) : option (string * nat) :=
  if Str.startswith s "/*" then
    match find_close (Str.drop 2 s) with
    | Some i => Some (Str.take (i + 4) s, i + 4)
    | None => None
    end
  else None.

(** [(?P<value>.+)$]: a non-empty run of characters other than LF that
    reaches the end of the text, or the LF that ends the text. *)
Definition key_value (s : string) : option string :=
  let (v, r) := Str.span (Chr.except Chr.LF) s in
  match v with
  | EmptyString => None
  | String _ _ =>
      if String.eqb r EmptyString || String.eqb r (String Chr.LF EmptyString)
      then Some v else None
  end.

(** [\s*(?P<value>.+)$]: the greedy [\s*] first takes every white space it
    can and gives them back one at a time while the rest fails. *)
Fixpoint key_spaces_value (s : string) : option string :=
  match s with
  | String c r =>
      if Chr.isspace c then
        match key_spaces_value r with
        | Some v => Some v
        | None => key_value s
        end
      else key_value s
  | EmptyString => None
  end.

(** [KEY_PATTERN.match]: [^'(?P<id>\d+)'\s*:\s*(?P<value>.+)$].  The result
    is the pair of the groups [id] and [value]. *)
Definition KEY_PATTERN (s : string) : option (string * string) :=
  if Str.startswith s "'" then
    let (id, r1) := Str.span Chr.isdigit (Str.drop 1 s) in
    match id with
    | EmptyString => None
    | String _ _ =>
        if Str.startswith r1 "'" then
          let r2 := Str.lstrip_by Chr.isspace (Str.drop 1 r1) in
          if Str.startswith r2 ":" then
            match key_spaces_value (Str.drop 1 r2) with
            | Some value => Some (id, value)
            | None => None
            end
          else None
        else None
    end
  else None.

(** A form: the pair (code, name). *)
Definition form : Type := string * string.

(** [FORM_PATTERN] anchored at the start of [s]; the pattern is
    [\['(Q)'\s*,\s*'(Q)'\s*\]] where [Q] stands for [[^']*], any run of
    characters other than the quote.  Each greedy star is followed by a
    character outside its class, so nothing is ever given back.  The
    result is the pair of the two groups and the length of the match. *)
Definition FORM_PATTERN (s : string) : option (form * nat) :=
  if Str.startswith s "['" then
    let (code, r1) := Str.span (Chr.except "'") (Str.drop 2 s) in
    if Str.startswith r1 "'" then
      let r2 := Str.lstrip_by Chr.isspace (Str.drop 1 r1) in
      if Str.startswith r2 "," then
        let r3 := Str.lstrip_by Chr.isspace (Str.drop 1 r2) in
        if Str.startswith r3 "'" then
          let (name, r4) := Str.span (Chr.except "'") (Str.drop 1 r3) in
          if Str.startswith r4 "'" then
            let r5 := Str.lstrip_by Chr.isspace (Str.drop 1 r4) in
            if Str.startswith r5 "]" then
              Some ((code, name),
                    String.length s - String.length (Str.drop 1 r5))
            else None
          else None
        else None
      else None
    else None
  else None.

(** ** The parser *)

(** [parse_forms_from_text] *)
Definition parse_forms_from_text (text : string) : list form :=
  Re.findall FORM_PATTERN text.

(** [re.sub(r"/\*[\s\S]*?\*/", "", raw)] *)
Definition strip_comments (raw : string) : string :=
  Re.sub_empty COMMENT_PATTERN raw.

(** A Python [dict] keeps its keys in the order of their first insertion;
    assigning to a key that is present replaces its value in place. *)
Definition dict : Type := list (string * list form).

Fixpoint dict_set (k : string) (v : list form) (d : dict) : dict :=
  match d with
  | [] => [(k, v)]
  | (k', v') :: d' =>
      if String.eqb k' k then (k, v) :: d' else (k', v') :: dict_set k v d'
  end.

Fixpoint dict_get (k : string) (d : dict) : option (list form) :=
  match d with
  | [] => None
  | (k', v') :: d' => if String.eqb k' k then Some v' else dict_get k d'
  end.

(** The variables of the loop of [parse_typescript_map]. *)
Record state : Type := State {
  entries : dict;
  current_id : option string;
  current_forms : list form
}.

Definition initial : state :=
  {| entries := []; current_id := None; current_forms := [] |}.

(** The test of line 34: lines the loop passes over. *)
Definition skipped (line : string) : bool :=
  String.eqb line EmptyString
  || Str.startswith line "//" || Str.startswith line "export".

(** The test of line 45: the value is a whole list on one line. *)
Definition complete (rest : string) : bool :=
  Str.startswith rest "[" && Str.endswith rest "]"
  && Nat.eqb (Str.count "[" rest) (Str.count "]" rest).

(** Lines 38 to 43: the key and the trimmed value of a key line. *)
Definition key_line (line : string) : option (string * string) :=
  match KEY_PATTERN (Str.rstrip_commas line) with
  | Some (key, value) => Some (key, Str.strip (Str.rstrip_commas value))
  | None => None
  end.

(** One turn of the loop of lines 32 to 63. *)
Definition process_line (st : state) (raw_line : string) : state :=
  let line := Str.strip raw_line in
  if skipped line then st
  else
    match current_id st with
    | None =>
        match key_line line with
        | None => st
        | Some (key, rest) =>
            if complete rest then
              {| entries := dict_set key (parse_forms_from_text rest) (entries st);
                 current_id := None;
                 current_forms := current_forms st |}
            else
              {| entries := entries st;
                 current_id := Some key;
                 current_forms :=
                   if negb (String.eqb rest EmptyString)
                      && negb (String.eqb rest "[")
                   then ([] ++ parse_forms_from_text rest)%list
                   else [] |}
        end
    | Some id =>
        if Str.startswith line "]" then
          {| entries := dict_set id (current_forms st) (entries st);
             current_id := None;
             current_forms := [] |}
        else
          {| entries := entries st;
             current_id := Some id;
             current_forms :=
               (current_forms st ++ parse_forms_from_text line)%list |}
    end.

Definition run (st : state) (lines : list string) : state :=
  fold_left process_line lines st.

(** Lines 65 to 68: the commit of a block still open after the last line. *)
Definition finish (st : state) : dict :=
  match current_id st with
  | Some id => dict_set id (current_forms st) (entries st)
  | None => entries st
  end.

(** The parser on a text from which the comments are already removed. *)
Definition parse_lines (text : string) : dict :=
  finish (run initial (Str.splitlines text)).

(** [parse_typescript_map], on the text [raw] read from the file. *)
Definition parse_typescript_map (raw : string) : dict :=
  parse_lines (strip_comments raw).

(** ** The loop with the exceptions of Python

    [KEY_PATTERN.match] returns a match object or [None], and the attribute
    lookup [match.group] on [None] raises [AttributeError].  The other calls
    of the loop are methods of a [str] or of a [list] on values that are
    always of that type, and the writes into [entries] have a [str] for
    key: they raise nothing.  The loop is written once more with that
    failure in it, statement by statement. *)
Inductive exn : Type := AttributeError.

Inductive result (A : Type) : Type :=
| Ok (a : A)
| Raise (e : exn).

Arguments Ok {A} a.
Arguments Raise {A} e.

Definition bind {A B : Type} (r : result A) (k : A -> result B) : result B :=
  match r with
  | Ok a => k a
  | Raise e => Raise e
  end.

(** The two named groups of [KEY_PATTERN]. *)
Inductive group_name : Type := group_id | group_value.

(** [match.group(name)], where [match] is what [KEY_PATTERN.match]
    returned. *)
Definition group (m : option (string * string)) (name : group_name)
  : result string :=
  match m with
  | None => Raise AttributeError
  | Some (id, value) =>
      Ok match name with group_id => id | group_value => value end
  end.

(** [not match]: a match object is true, [None] is false. *)
Definition not_match (m : option (string * string)) : bool :=
  match m with None => true | Some _ => false end.

(** One turn of the loop of lines 32 to 63, with its exceptions. *)
Definition process_line_checked (st : state) (raw_line : string)
  : result state :=
  let line := Str.strip raw_line in
  if skipped line then Ok st
  else
    match current_id st with
    | None =>
        let m := KEY_PATTERN (Str.rstrip_commas line) in
        if not_match m then Ok st
        else
          bind (group m group_id) (fun key =>
          bind (group m group_value) (fun value =>
          let rest := Str.strip (Str.rstrip_commas value) in
          if complete rest then
            Ok {| entries := dict_set key (parse_forms_from_text rest) (entries st);
                  current_id := None;
                  current_forms := current_forms st |}
          else
            Ok {| entries := entries st;
                  current_id := Some key;
                  current_forms :=
                    if negb (String.eqb rest EmptyString)
                       && negb (String.eqb rest "[")
                    then ([] ++ parse_forms_from_text rest)%list
                    else [] |}))
    | Some id =>
        if Str.startswith line "]" then
          Ok {| entries := dict_set id (current_forms st) (entries st);
                current_id := None;
                current_forms := [] |}
        else
          Ok {| entries := entries st;
                current_id := Some id;
                current_forms :=
                  (current_forms st ++ parse_forms_from_text line)%list |}
    end.

(** The loop: an exception ends it. *)
Fixpoint run_checked (st : state) (lines : list string) : result state :=
  match lines with
  | [] => Ok st
  | raw_line :: rest =>
      bind (process_line_checked st raw_line) (fun st' => run_checked st' rest)
  end.

(** [parse_typescript_map] with its exceptions, on the text [raw] read from
    the file. *)
Definition parse_typescript_map_checked (raw : string) : result dict :=
  bind (run_checked initial (Str.splitlines (strip_comments raw)))
       (fun st => Ok (finish st)).

(** ** The summary *)

(** [max(names, default="", key=len)]: the scan keeps the first item and
    replaces it only by a strictly longer one. *)
Definition longer (best y : string) : string :=
  if Nat.ltb (String.length best) (String.length y) then y else best.

Definition max_by_len (names : list string) : string :=
  match names with
  | [] => EmptyString
  | x :: xs => fold_left longer xs x
  end.

(** [name for forms in entries.values() for _, name in forms] *)
Definition form_names (d : dict) : list string :=
  flat_map (fun kv => map snd (snd kv)) d.

(** [sum(len(forms) for forms in entries.values())] *)
Definition total_forms (d : dict) : nat :=
  list_sum (map (fun kv => List.length (snd kv)) d).

Definition longest_name (d : dict) : string := max_by_len (form_names d).

(** [summarize]: the three values its result string is formatted from, in
    the order they appear in it. *)
Definition summarize (d : dict) : nat * nat * string :=
  (List.length d, total_forms d, longest_name d).

(** The text of one LF. *)
Definition nl : string := String Chr.LF EmptyString.

(** No comment is open at the end of [pre]: a terminator put right after
    [pre] closes nothing. *)
Definition closed (pre : string) : Prop :=
  strip_comments (pre ++ "*/") = strip_comments pre ++ "*/".

(** ** The commits of a run

    The loop writes into [entries] at three places: line 46 (an entry that
    fits on one line), line 57 (the closing bracket of a block) and line 66
    (a block still open after the last line).  [commit_of] is the write, if
    any, that one turn of the loop performs; [commits] lists the writes of a
    whole run in the order they happen. *)

Definition commit_of (st : state) (raw_line : string)
  : option (string * list form) :=
  let line := Str.strip raw_line in
  if skipped line then None
  else
    match current_id st with
    | None =>
        match key_line line with
        | Some (key, rest) =>
            if complete rest then Some (key, parse_forms_from_text rest)
            else None
        | None => None
        end
    | Some id =>
        if Str.startswith line "]" then Some (id, current_forms st) else None
    end.

Fixpoint commits (st : state) (lines : list string)
  : list (string * list form) :=
  match lines with
  | [] =>
      match current_id st with
      | Some id => [(id, current_forms st)]
      | None => []
      end
  | l :: ls =>
      match commit_of st l with
      | Some c => c :: commits (process_line st l) ls
      | None => commits (process_line st l) ls
      end
  end.

(** The value of the last write to [k] in a list of writes: only the
    writes to [k] count, and of those the last one. *)
Definition writes_to (k : string) (log : list (string * list form))
  : list (string * list form) :=
  filter (fun kv => String.eqb (fst kv) k) log.

Definition last_commit (k : string) (log : list (string * list form))
  : option (list form) :=
  match rev (writes_to k log) with
  | kv :: _ => Some (snd kv)
  | [] => None
  end.

(** A turn of the loop that changes nothing: a line the loop passes over,
    a line outside a block that is no key line, or a line inside a block
    that neither closes it nor holds a form. *)
Definition unrecognized (st : state) (raw_line : string) : bool :=
  let line := Str.strip raw_line in
  skipped line ||
  match current_id st with
  | None => match key_line line with None => true | Some _ => false end
  | Some _ =>
      negb (Str.startswith line "]")
      && match parse_forms_from_text line with [] => true | _ :: _ => false end
  end.

(** ** Trailing commas, as the specification words them

    The specification speaks of stripping a single trailing comma, first from
    the line and then from the value.  [rstrip_one_comma] does that and
    [key_line_single_comma] is [key_line] with it in place of
    [Str.rstrip_commas]. *)

Fixpoint rstrip_one_comma (s : string) : string :=
  match s with
  | EmptyString => EmptyString
  | String c EmptyString => if Ascii.eqb c "," then EmptyString else s
  | String c r => String c (rstrip_one_comma r)
  end.

Definition key_line_single_comma (line : string) : option (string * string) :=
  match KEY_PATTERN (rstrip_one_comma line) with
  | Some (key, value) => Some (key, Str.strip (rstrip_one_comma value))
  | None => None
  end.

(** ** Further notions used in the statements *)

(** The forms a block gathers from the lines that follow its key line. *)
Definition block_forms (body : list string) : list form :=
  flat_map (fun l => let line := Str.strip l in
                     if skipped line then [] else parse_forms_from_text line)
           body.

(** No single quote occurs in [s]. *)
Definition quote_free (s : string) : Prop := Str.contains s "'" = false.

(** The number of lines of a text. *)
Definition line_count (s : string) : nat := List.length (Str.splitlines s).

(** One write, applied to the dictionary. *)
Definition apply_commit (d : dict) (kv : string * list form) : dict :=
  dict_set (fst kv) (snd kv) d.

(** Neither field of the form, no form of the dictionary, no form of the
    state holds a quote. *)
Definition form_quote_free (f : form) : Prop :=
  quote_free (fst f) /\ quote_free (snd f).

Definition dict_quote_free (d : dict) : Prop :=
  Forall (fun kv => Forall form_quote_free (snd kv)) d.

Definition state_quote_free (st : state) : Prop :=
  dict_quote_free (entries st) /\ Forall form_quote_free (current_forms st).

(** [r] is the first of the longest strings of [l]. *)
Definition first_longest (r : string) (l : list string) : Prop :=
  exists l1 l2,
    l = (l1 ++ r :: l2)%list
    /\ Forall (fun x => String.length x < String.length r) l1
    /\ Forall (fun x => String.length x <= String.length r) l2.

(** The name of the form [f] is shorter than [r]; it is not longer. *)
Definition shorter_than (r : string) (f : form) : Prop :=
  String.length (snd f) < String.length r.

Definition no_longer_than (r : string) (f : form) : Prop :=
  String.length (snd f) <= String.length r.

(** [r] is the first of the longest names of the mapping [d], in the order
    of its entries and, in an entry, of its forms: [r] is the name of a form
    of [d], every name in the entries before that of the form and in the
    forms before it in its entry is shorter, and no name after it is
    longer. *)
Definition first_longest_in (r : string) (d : dict) : Prop :=
  exists d1 k fs1 c fs2 d2,
    d = (d1 ++ (k, (fs1 ++ (c, r) :: fs2)%list) :: d2)%list
    /\ Forall (fun kv => Forall (shorter_than r) (snd kv)) d1
    /\ Forall (shorter_than r) fs1
    /\ Forall (no_longer_than r) fs2
    /\ Forall (fun kv => Forall (no_longer_than r) (snd kv)) d2.

(** Every character of [s] is in the class [p]. *)
Fixpoint all_chars (p : ascii -> bool) (s : string) : bool :=
  match s with
  | EmptyString => true
  | String c r => p c && all_chars p r
  end.

(** [s] lies on one line. *)
Definition no_linebreak (s : string) : bool :=
  all_chars (fun c => negb (Chr.islinebreak c)) s.

(** What a CR at the head of a text leaves after it: a LF right behind
    it belongs to the same line boundary. *)
Definition after_break (c : ascii) (r : string) : string :=
  match r with
  | String d r' => if Ascii.eqb c Chr.CR && Ascii.eqb d Chr.LF then r' else r
  | EmptyString => r
  end.

(** [t] is [s] with some of its characters left out. *)
Inductive subseq : string -> string -> Prop :=
| subseq_nil : subseq "" ""
| subseq_skip (c : ascii) (t s : string) : subseq t s -> subseq t (String c s)
| subseq_keep (c : ascii) (t s : string) :
    subseq t s -> subseq (String c t) (String c s).

(** [b] is empty or begins with a character outside the class [p]. *)
Definition starts_outside (p : ascii -> bool) (b : string) : Prop :=
  match b with
  | String d _ => p d = false
  | EmptyString => True
  end.

(** The text of a key line with a value in brackets, from its parts:
    white space, the quoted identifier, a colon with white space around it,
    the value, white space, [n] commas and white space. *)
Definition entry_line (lead id ws1 ws2 rest ws3 : string) (n : nat)
           (trail : string) : string :=
  lead ++ "'" ++ id ++ "'" ++ ws1 ++ ":" ++ ws2 ++ rest ++ ws3
  ++ Str.repeat "," n ++ trail.

(** The text of a form and of a list of forms, as the map literal writes
    them. *)
Definition tuple_text (f : form) : string :=
  "['" ++ fst f ++ "', '" ++ snd f ++ "']".

Fixpoint tuples_text (fs : list form) : string :=
  match fs with
  | [] => ""
  | [f] => tuple_text f
  | f :: fs' => tuple_text f ++ ", " ++ tuples_text fs'
  end.

Definition value_text (fs : list form) : string :=
  "[" ++ tuples_text fs ++ "]".



(** A text in which the identifier 3 is written twice, first on one line
    and then as a block. *)
Definition twice_text : string :=
  "'3': [['a', 'Old']]," ++ nl ++ "'4': [['b', 'Bee']]," ++ nl ++
  "'3': [" ++ nl ++ "['c', 'New']," ++ nl ++ "],".

(** ** Notions for the further properties *)

(** A non-empty run of decimal digits. *)
Definition digit_string (s : string) : Prop :=
  s <> "" /\ all_chars Chr.isdigit s = true.

(** The identifiers of a list of writes with only the first occurrence of
    each kept. *)
Fixpoint first_occurrences (ks : list string) : list string :=
  match ks with
  | [] => []
  | k :: r =>
      k :: filter (fun x => negb (String.eqb x k)) (first_occurrences r)
  end.

(** Every identifier of the dictionary, and the identifier of the open
    block, is a run of digits. *)
Definition keys_digits (d : dict) : Prop :=
  Forall (fun kv => digit_string (fst kv)) d.

Definition state_keys_digits (st : state) : Prop :=
  keys_digits (entries st)
  /\ match current_id st with Some id => digit_string id | None => True end.

(** [t] stands somewhere in [s]. *)
Definition occurs (t s : string) : Prop := exists a b, s = a ++ t ++ b.

(** [t] is the text of the form [f] as the pattern accepts it: the two
    quoted fields in brackets, with any white space around the comma and
    before the closing bracket. *)
Definition tuple_of (f : form) (t : string) : Prop :=
  exists ws1 ws2 ws3,
    all_chars Chr.isspace (ws1 ++ ws2 ++ ws3) = true
    /\ t = "['" ++ fst f ++ "'" ++ ws1 ++ "," ++ ws2 ++ "'" ++ snd f ++ "'"
           ++ ws3 ++ "]".

(** Every form, every identifier of the dictionary and of the state stands
    in [text]. *)
Definition forms_from (text : string) (fs : list form) : Prop :=
  forall f, In f fs -> exists t, tuple_of f t /\ occurs t text.

Definition dict_from (text : string) (d : dict) : Prop :=
  forall k fs, In (k, fs) d ->
    occurs ("'" ++ k ++ "'") text /\ forms_from text fs.

Definition state_from (text : string) (st : state) : Prop :=
  dict_from text (entries st)
  /\ (forall id, current_id st = Some id -> occurs ("'" ++ id ++ "'") text)
  /\ forms_from text (current_forms st).

(** The text of a key line that ends with its value, from its parts: white
    space, the quoted identifier, a colon with white space around it, the
    value and white space. *)
Definition block_line (lead id ws1 ws2 value trail : string) : string :=
  lead ++ "'" ++ id ++ "'" ++ ws1 ++ ":" ++ ws2 ++ value ++ trail.

(** ** The sample listing of [main] *)

(** An item of [entries.items()]. *)
Definition item : Type := string * list form.

(** The number a run of decimal digits writes. *)
Definition digit_value (c : ascii) : N := N_of_ascii c - 48.

Fixpoint decimal (acc : N) (s : string) : N :=
  match s with
  | EmptyString => acc
  | String c r => decimal (10 * acc + digit_value c) r
  end.

(** [int(s)] on a non-empty run of decimal digits: the number it writes,
    or [None] for the [ValueError] that the interpreter raises when it
    limits the digits of such a text to [int_max_str_digits] (its
    [sys.get_int_max_str_digits()], 0 for no limit; texts of 640 digits or
    fewer are never refused) and [s] has more.  On any other text the result
    is [None] as well: [main] calls [int] on identifiers only, and [int] is
    not modelled outside the runs of digits. *)
Definition int_of_digits (int_max_str_digits : nat) (s : string) : option N :=
  if negb (String.eqb s "") && all_chars Chr.isdigit s then
    if Nat.ltb 640 (String.length s) && Nat.ltb 0 int_max_str_digits
       && Nat.ltb int_max_str_digits (String.length s)
    then None
    else Some (decimal 0 s)
  else None.

(** The items with the keys [int(item[0])] that [sorted] computes before it
    sorts; [None] when one of them raises. *)
Fixpoint keyed (int_max_str_digits : nat) (d : dict) : option (list (N * item)) :=
  match d with
  | [] => Some []
  | it :: d' =>
      match int_of_digits int_max_str_digits (fst it) with
      | Some n =>
          match keyed int_max_str_digits d' with
          | Some l => Some ((n, it) :: l)
          | None => None
          end
      | None => None
      end
  end.

(** [sorted] is stable: an item goes before the first item whose key is
    not smaller than its own. *)
Fixpoint insert_by_key (x : N * item) (l : list (N * item)) : list (N * item) :=
  match l with
  | [] => [x]
  | y :: l' =>
      if N.leb (fst x) (fst y) then x :: l else y :: insert_by_key x l'
  end.

Definition sort_by_key (l : list (N * item)) : list (N * item) :=
  fold_right insert_by_key [] l.

(** [sorted(entries.items(), key=lambda item: int(item[0]))] *)
Definition sorted_items (int_max_str_digits : nat) (d : dict) : option (list item) :=
  option_map (fun l => map snd (sort_by_key l)) (keyed int_max_str_digits d).

(** The items that lines 113 to 119 list: none unless [sample] is positive,
    else the first [sample] of the sorted items. *)
Definition sample_entries (int_max_str_digits : nat) (d : dict) (sample : Z)
  : option (list item) :=
  if (0 <? sample)%Z then
    option_map (firstn (Z.to_nat sample)) (sorted_items int_max_str_digits d)
  else Some [].

(** Line 118 and line 119: the text printed for one item. *)
Definition forms_display (forms : list form) : string :=
  String.concat ", " (map (fun f => fst f ++ ":" ++ snd f) forms).

Definition sample_line (it : item) : string :=
  "  " ++ fst it ++ ": " ++ forms_display (snd it).

(** The texts that the [print] calls of lines 113 to 119 write, one per
    call; [None] when [sorted] raises, which happens after the heading is
    printed. *)
Definition sample_output (int_max_str_digits : nat) (d : dict) (sample : Z)
  : option (list string) :=
  if (0 <? sample)%Z then
    option_map (fun its => (nl ++ "Sample entries:") :: map sample_line its)
               (sample_entries int_max_str_digits d sample)
  else Some [].

(** The number of an item: the one its identifier writes. *)
Definition item_number (it : item) : N := decimal 0 (fst it).

(** The order of the keys, and the order of the numbers of the items. *)
Definition key_le (x y : N * item) : Prop := (fst x <= fst y)%N.

Definition number_le (a b : item) : Prop := (item_number a <= item_number b)%N.

(** * Properties *)

(** ** Strings *)

Lemma append_nil_r (s : string) : s ++ "" = s.
Proof. induction s as [|c s IH]; simpl; [reflexivity | now rewrite IH]. Qed.

Lemma append_assoc (a b c : string) : (a ++ b) ++ c = a ++ (b ++ c).
Proof. induction a as [|x a IH]; simpl; [reflexivity | now rewrite IH]. Qed.

Lemma length_append (a b : string) :
  String.length (a ++ b) = String.length a + String.length b.
Proof. induction a as [|x a IH]; simpl; [reflexivity | now rewrite IH]. Qed.

Lemma drop_0 (s : string) : Str.drop 0 s = s.
Proof. now destruct s. Qed.

Lemma drop_nil (n : nat) : Str.drop n "" = "".
Proof. now destruct n. Qed.

Lemma drop_app_length (a b : string) : Str.drop (String.length a) (a ++ b) = b.
Proof. induction a as [|x a IH]; simpl; [apply drop_0 | exact IH]. Qed.

Lemma length_drop (n : nat) (s : string) :
  String.length (Str.drop n s) = String.length s - n.
Proof.
  revert s; induction n as [|n IH]; intros [|c r]; simpl; auto.
Qed.

Lemma startswith_app (p s : string) : Str.startswith (p ++ s) p = true.
Proof.
  induction p as [|a p IH]; simpl; [now destruct s|].
  now rewrite Ascii.eqb_refl, IH.
Qed.

Lemma startswith_split (s p : string) :
  Str.startswith s p = true -> s = p ++ Str.drop (String.length p) s.
Proof.
  revert s; induction p as [|a p IH]; intros s H; simpl.
  - reflexivity.
  - destruct s as [|c r]; simpl in H; [discriminate|].
    apply andb_true_iff in H as [Hc Hr].
    apply Ascii.eqb_eq in Hc; subst c. simpl. f_equal. now apply IH.
Qed.

(** ** The scan *)

Section ScanFacts.
Context {A : Type}.
Variable m : string -> option (A * nat).

Lemma scan_from_drop (k : nat) (s : string) :
  Re.scan_from m k s = Re.scan m (Str.drop k s).
Proof.
  revert k; induction s as [|c r IH]; intros [|k]; simpl; try reflexivity.
  apply IH.
Qed.

Lemma scan_match (s : string) (a : A) (n : nat) :
  m s = Some (a, n) -> 0 < n -> s <> "" ->
  Re.scan m s = inl a :: Re.scan m (Str.drop n s).
Proof.
  intros Hm Hn Hs. destruct s as [|c r]; [congruence|].
  unfold Re.scan at 1. simpl. rewrite Hm, scan_from_drop.
  destruct n as [|n]; [lia|]. reflexivity.
Qed.

Lemma scan_pass (c : ascii) (r : string) :
  m (String c r) = None ->
  Re.scan m (String c r) = inr c :: Re.scan m r.
Proof. intros Hm. unfold Re.scan at 1. simpl. now rewrite Hm. Qed.
End ScanFacts.

(** ** The comment pattern *)

Lemma startswith_app_l (s p z : string) :
  Str.startswith s p = true -> Str.startswith (s ++ z) p = true.
Proof.
  revert s; induction p as [|a p IH]; intros [|c r] H; simpl in *;
    try reflexivity; try discriminate.
  apply andb_true_iff in H as [Hc Hr]. rewrite Hc. simpl. now apply IH.
Qed.

Lemma find_close_bound (s : string) (i : nat) :
  find_close s = Some i -> i + 2 <= String.length s.
Proof.
  revert i; induction s as [|c r IH]; intros i H; [discriminate|].
  cbn [find_close] in H.
  destruct (Str.startswith (String c r) "*/") eqn:E.
  - injection H as <-. simpl in E. apply andb_true_iff in E as [_ E].
    destruct r; simpl in *; [discriminate | lia].
  - destruct (find_close r) as [j|]; simpl in H; [|discriminate].
    injection H as <-. specialize (IH j eq_refl). simpl. lia.
Qed.

Lemma find_close_app (s z : string) (i : nat) :
  find_close s = Some i -> find_close (s ++ z) = Some i.
Proof.
  revert i; induction s as [|c r IH]; intros i H; [discriminate|].
  change (String c r ++ z) with (String c (r ++ z)).
  cbn [find_close] in *.
  destruct (Str.startswith (String c r) "*/") eqn:E.
  - change (String c (r ++ z)) with (String c r ++ z).
    now rewrite (startswith_app_l _ _ z E).
  - destruct (find_close r) as [j|] eqn:Ej; simpl in H; [|discriminate].
    rewrite (IH j eq_refl). simpl.
    destruct (Ascii.eqb c "*") eqn:Ec; simpl in *; [|exact H].
    destruct r as [|d r']; [discriminate|]. simpl in *.
    rewrite Ec in E. simpl in E. now rewrite E.
Qed.

Lemma find_close_none_tail (c : ascii) (r : string) :
  find_close (String c r) = None -> find_close r = None.
Proof.
  cbn [find_close]. destruct (Str.startswith (String c r) "*/"); [discriminate|].
  now destruct (find_close r).
Qed.

Lemma find_close_none_drop (k : nat) (s : string) :
  find_close s = None -> find_close (Str.drop k s) = None.
Proof.
  revert s; induction k as [|k IH]; intros [|c r] H; simpl; auto.
  apply IH. now apply find_close_none_tail in H.
Qed.

(** The first terminator after a body that holds none is the one that
    follows the body. *)
Lemma find_close_first (body post : string) :
  find_close body = None ->
  find_close (body ++ "*/" ++ post) = Some (String.length body).
Proof.
  induction body as [|c b IH]; intros H; [reflexivity|].
  pose proof (find_close_none_tail _ _ H) as Hb.
  change (String c b ++ "*/" ++ post) with (String c (b ++ "*/" ++ post)).
  cbn [find_close] in *. rewrite (IH Hb).
  destruct (Str.startswith (String c b) "*/") eqn:E; [discriminate|].
  replace (Str.startswith (String c (b ++ "*/" ++ post)) "*/") with false;
    [reflexivity|].
  simpl in *. destruct (Ascii.eqb c "*"); [|reflexivity].
  destruct b as [|d b']; simpl in *; [reflexivity | now rewrite E].
Qed.

(** ** The comment stripper *)

Lemma strip_comments_nil : strip_comments "" = "".
Proof. reflexivity. Qed.

Lemma comment_pattern_length (s t : string) (n : nat) :
  COMMENT_PATTERN s = Some (t, n) -> 4 <= n <= String.length s.
Proof.
  unfold COMMENT_PATTERN. destruct (Str.startswith s "/*") eqn:E; [|discriminate].
  destruct (find_close (Str.drop 2 s)) as [i|] eqn:F; [|discriminate].
  intros H; injection H as _ <-.
  apply find_close_bound in F. rewrite length_drop in F. lia.
Qed.

Lemma strip_comments_match (s t : string) (n : nat) :
  COMMENT_PATTERN s = Some (t, n) ->
  strip_comments s = strip_comments (Str.drop n s).
Proof.
  intros H. pose proof (comment_pattern_length _ _ _ H) as Hn.
  unfold strip_comments, Re.sub_empty.
  rewrite (scan_match _ _ _ _ H); [reflexivity | lia |].
  intros ->. simpl in Hn. lia.
Qed.

Lemma strip_comments_pass (c : ascii) (r : string) :
  COMMENT_PATTERN (String c r) = None ->
  strip_comments (String c r) = String c (strip_comments r).
Proof.
  intros H. unfold strip_comments, Re.sub_empty.
  now rewrite (scan_pass _ _ _ H).
Qed.

(** A whole comment at the head of the text is removed, up to its first
    terminator and no further. *)
Lemma strip_comments_head (body post : string) :
  find_close body = None ->
  strip_comments ("/*" ++ body ++ "*/" ++ post) = strip_comments post.
Proof.
  intros H.
  assert (P : COMMENT_PATTERN ("/*" ++ body ++ "*/" ++ post)
              = Some (Str.take (String.length body + 4)
                               ("/*" ++ body ++ "*/" ++ post),
                      String.length body + 4)).
  { unfold COMMENT_PATTERN. rewrite startswith_app.
    change (Str.drop 2 ("/*" ++ body ++ "*/" ++ post))
      with (body ++ "*/" ++ post).
    now rewrite (find_close_first _ post H). }
  rewrite (strip_comments_match _ _ _ P).
  f_equal. replace (String.length body + 4) with (S (S (String.length body + 2))) by lia.
  change (Str.drop (S (S (String.length body + 2))) ("/*" ++ body ++ "*/" ++ post))
    with (Str.drop (String.length body + 2) (body ++ "*/" ++ post)).
  replace (String.length body + 2) with (String.length (body ++ "*/")).
  - rewrite <- append_assoc. apply drop_app_length.
  - rewrite length_append. reflexivity.
Qed.

(** A text that holds no terminator is left as it is. *)
Lemma strip_comments_no_close (s : string) :
  find_close s = None -> strip_comments s = s.
Proof.
  induction s as [|c r IH]; intros H; [reflexivity|].
  rewrite strip_comments_pass.
  - f_equal. apply IH. now apply find_close_none_tail in H.
  - unfold COMMENT_PATTERN. destruct (Str.startswith (String c r) "/*"); [|reflexivity].
    now rewrite (find_close_none_drop 2 _ H).
Qed.

Lemma drop_app (n : nat) (s z : string) :
  n <= String.length s -> Str.drop n (s ++ z) = Str.drop n s ++ z.
Proof.
  revert s; induction n as [|n IH]; intros [|c r] H; simpl in *;
    try reflexivity; try lia.
  apply IH. lia.
Qed.

Lemma comment_pattern_app (s z t : string) (n : nat) :
  COMMENT_PATTERN s = Some (t, n) ->
  COMMENT_PATTERN (s ++ z) = Some (Str.take n (s ++ z), n).
Proof.
  intros H. pose proof (comment_pattern_length _ _ _ H) as Hn.
  unfold COMMENT_PATTERN in *.
  destruct (Str.startswith s "/*") eqn:E; [|discriminate].
  rewrite (startswith_app_l _ _ z E).
  destruct (find_close (Str.drop 2 s)) as [i|] eqn:F; [|discriminate].
  injection H as _ <-.
  rewrite drop_app by lia. now rewrite (find_close_app _ z _ F).
Qed.

(** What follows a text with no open comment is stripped on its own,
    unless it begins with the star that would complete an opener. *)
Lemma strip_comments_app_closed (pre z : string) :
  closed pre -> Str.startswith z "*" = false ->
  strip_comments (pre ++ z) = strip_comments pre ++ strip_comments z.
Proof.
  remember (String.length pre) as n eqn:Hn.
  assert (Hle : String.length pre <= n) by lia. clear Hn.
  revert pre Hle. induction n as [|n IH]; intros pre Hle Hc Hz.
  { destruct pre; [reflexivity | simpl in Hle; lia]. }
  destruct pre as [|c r]; [reflexivity|].
  destruct (COMMENT_PATTERN (String c r)) as [[t k]|] eqn:P.
  - pose proof (comment_pattern_length _ _ _ P) as Hk.
    rewrite (strip_comments_match _ _ _ (comment_pattern_app _ z _ _ P)).
    rewrite (strip_comments_match _ _ _ P).
    rewrite drop_app by lia. apply IH; [rewrite length_drop; lia | | exact Hz].
    unfold closed in *.
    rewrite (strip_comments_match _ _ _ (comment_pattern_app _ "*/" _ _ P)) in Hc.
    rewrite (strip_comments_match _ _ _ P) in Hc.
    now rewrite drop_app in Hc by lia.
  - destruct (Str.startswith (String c r) "/*") eqn:E.
    + exfalso. unfold closed in Hc.
      apply startswith_split in E. cbn [String.length] in E.
      set (body := Str.drop 2 (String c r)) in *.
      assert (F : find_close body = None).
      { unfold COMMENT_PATTERN in P.
        rewrite E, startswith_app in P.
        change (Str.drop 2 ("/*" ++ body)) with body in P.
        now destruct (find_close body). }
      rewrite (strip_comments_pass _ _ P) in Hc.
      rewrite E in Hc.
      change (("/*" ++ body) ++ "*/") with ("/*" ++ (body ++ "*/")) in Hc.
      replace (body ++ "*/") with (body ++ "*/" ++ "") in Hc by reflexivity.
      rewrite (strip_comments_head _ _ F) in Hc. discriminate.
    + rewrite (strip_comments_pass _ _ P).
      change (String c r ++ z) with (String c (r ++ z)).
      assert (P' : forall y, Str.startswith y "*" = false \/ y = "*/" ->
                   COMMENT_PATTERN (String c (r ++ y)) = None).
      { intros y Hy. unfold COMMENT_PATTERN.
        destruct r as [|d r'].
        - simpl in *. destruct Hy as [Hy| ->].
          + destruct y; simpl in *; [now rewrite andb_false_r|].
            now rewrite Hy, andb_false_r.
          + now destruct (Ascii.eqb c "/").
        - simpl in *. now rewrite E. }
      rewrite strip_comments_pass by (apply P'; now left).
      simpl. f_equal. apply IH; [simpl in Hle; lia | | exact Hz].
      unfold closed in *.
      change (String c r ++ "*/") with (String c (r ++ "*/")) in Hc.
      rewrite strip_comments_pass in Hc by (apply P'; now right).
      rewrite (strip_comments_pass _ _ P) in Hc.
      simpl in Hc. now injection Hc.
Qed.

Example closed_examples :
  closed "x = 1; /* one */ y" /\ closed "a*" /\ closed "/"
  /\ ~ closed "/* one" /\ ~ closed "/* one *" /\ ~ closed "/*/".
Proof. unfold closed. repeat split; try discriminate. Qed.

(** A text without an opener has no open comment and loses nothing. *)
Lemma strip_comments_no_open_app (pre z : string) :
  Str.contains pre "/*" = false ->
  COMMENT_PATTERN (String "/" z) = None ->
  strip_comments (pre ++ z) = pre ++ strip_comments z.
Proof.
  induction pre as [|c r IH]; intros H Hz; [reflexivity|].
  cbn [Str.contains] in H. apply orb_false_iff in H as [H1 H2].
  change (String c r ++ z) with (String c (r ++ z)).
  rewrite strip_comments_pass; [simpl; f_equal; now apply IH|].
  destruct r as [|d r'].
  - simpl. destruct (Ascii.eqb c "/") eqn:Ec.
    + apply Ascii.eqb_eq in Ec. now subst c.
    + unfold COMMENT_PATTERN. simpl. now rewrite Ec.
  - unfold COMMENT_PATTERN. simpl in *. now rewrite H1.
Qed.

Lemma strip_comments_no_open (s : string) :
  Str.contains s "/*" = false -> strip_comments s = s.
Proof.
  intros H. rewrite <- (append_nil_r s) at 1.
  rewrite strip_comments_no_open_app; [apply append_nil_r | exact H | reflexivity].
Qed.

Lemma closed_no_open (pre : string) :
  Str.contains pre "/*" = false -> closed pre.
Proof.
  intros H. unfold closed.
  rewrite strip_comments_no_open_app; [| exact H | reflexivity].
  now rewrite (strip_comments_no_open _ H).
Qed.

(** ** The dictionary *)

Lemma dict_get_set_same (k : string) (v : list form) (d : dict) :
  dict_get k (dict_set k v d) = Some v.
Proof.
  induction d as [|[k' v'] d IH]; simpl.
  - now rewrite String.eqb_refl.
  - destruct (String.eqb k' k) eqn:E; simpl.
    + now rewrite String.eqb_refl.
    + now rewrite E.
Qed.

Lemma dict_get_set_other (k k' : string) (v : list form) (d : dict) :
  k' <> k -> dict_get k' (dict_set k v d) = dict_get k' d.
Proof.
  intros Hk. apply String.eqb_neq in Hk.
  induction d as [|[k0 v0] d IH]; simpl.
  - now rewrite String.eqb_sym, Hk.
  - destruct (String.eqb k0 k) eqn:E; simpl.
    + apply String.eqb_eq in E; subst k0.
      now rewrite (String.eqb_sym k k'), Hk.
    + now rewrite IH.
Qed.

(** ** One turn of the loop *)

Lemma process_line_skipped (st : state) (raw_line : string) :
  skipped (Str.strip raw_line) = true -> process_line st raw_line = st.
Proof. intros H. unfold process_line. now rewrite H. Qed.

Lemma process_line_no_key (st : state) (raw_line : string) :
  current_id st = None -> key_line (Str.strip raw_line) = None ->
  process_line st raw_line = st.
Proof.
  intros Hc Hk. unfold process_line. rewrite Hc, Hk.
  now destruct (skipped _).
Qed.

Lemma process_line_no_form (st : state) (raw_line id : string) :
  current_id st = Some id ->
  Str.startswith (Str.strip raw_line) "]" = false ->
  parse_forms_from_text (Str.strip raw_line) = [] ->
  process_line st raw_line = st.
Proof.
  intros Hc Hb Hf. unfold process_line. rewrite Hc, Hb, Hf.
  destruct (skipped _); [reflexivity|].
  rewrite app_nil_r. destruct st; simpl in *. now subst.
Qed.

Lemma process_line_complete (st : state) (raw_line key rest : string) :
  current_id st = None ->
  skipped (Str.strip raw_line) = false ->
  key_line (Str.strip raw_line) = Some (key, rest) ->
  complete rest = true ->
  process_line st raw_line =
    {| entries := dict_set key (parse_forms_from_text rest) (entries st);
       current_id := None;
       current_forms := current_forms st |}.
Proof.
  intros Hc Hs Hk Hr. unfold process_line. now rewrite Hs, Hc, Hk, Hr.
Qed.

Lemma process_line_open (st : state) (raw_line key rest : string) :
  current_id st = None ->
  skipped (Str.strip raw_line) = false ->
  key_line (Str.strip raw_line) = Some (key, rest) ->
  complete rest = false ->
  process_line st raw_line =
    {| entries := entries st;
       current_id := Some key;
       current_forms :=
         if negb (String.eqb rest "") && negb (String.eqb rest "[")
         then parse_forms_from_text rest else [] |}.
Proof.
  intros Hc Hs Hk Hr. unfold process_line. now rewrite Hs, Hc, Hk, Hr.
Qed.

Lemma process_line_inside (st : state) (raw_line id : string) :
  current_id st = Some id ->
  Str.startswith (Str.strip raw_line) "]" = false ->
  process_line st raw_line =
    {| entries := entries st;
       current_id := Some id;
       current_forms :=
         (current_forms st ++
          (if skipped (Str.strip raw_line) then []
           else parse_forms_from_text (Str.strip raw_line)))%list |}.
Proof.
  intros Hc Hb. unfold process_line. rewrite Hc, Hb.
  destruct (skipped _); [|reflexivity].
  rewrite app_nil_r. destruct st; simpl in *. now subst.
Qed.

(** A block that is never closed gathers the forms of all its lines. *)
Lemma run_inside (body : list string) (st : state) (id : string) :
  current_id st = Some id ->
  (forall l, In l body -> Str.startswith (Str.strip l) "]" = false) ->
  run st body =
    {| entries := entries st;
       current_id := Some id;
       current_forms := (current_forms st ++ block_forms body)%list |}.
Proof.
  revert st; induction body as [|l body IH]; intros st Hc Hb.
  - simpl. rewrite app_nil_r. destruct st; simpl in *. now subst.
  - cbn [run fold_left]. fold (run (process_line st l) body).
    rewrite (process_line_inside st l id Hc) by (apply Hb; now left).
    rewrite IH; [| reflexivity | intros; apply Hb; now right].
    simpl. now rewrite <- app_assoc.
Qed.

(** ** The writes of a run *)

Lemma process_line_entries (st : state) (raw_line : string) :
  entries (process_line st raw_line) =
    match commit_of st raw_line with
    | Some kv => apply_commit (entries st) kv
    | None => entries st
    end.
Proof.
  unfold process_line, commit_of.
  destruct (skipped _); [reflexivity|].
  destruct (current_id st) as [id|].
  - now destruct (Str.startswith _ "]").
  - destruct (key_line _) as [[key rest]|]; [|reflexivity].
    now destruct (complete rest).
Qed.

Lemma finish_run_commits (lines : list string) (st : state) :
  finish (run st lines) = fold_left apply_commit (commits st lines) (entries st).
Proof.
  revert st; induction lines as [|l lines IH]; intros st.
  - unfold run, finish. simpl. now destruct (current_id st).
  - cbn [run fold_left commits]. fold (run (process_line st l) lines).
    rewrite IH, process_line_entries.
    now destruct (commit_of st l).
Qed.

Lemma last_commit_snoc (k : string) (log : list (string * list form))
      (kv : string * list form) :
  last_commit k (log ++ [kv]) =
    if String.eqb (fst kv) k then Some (snd kv) else last_commit k log.
Proof.
  unfold last_commit, writes_to. rewrite filter_app. simpl.
  destruct (String.eqb (fst kv) k).
  - now rewrite rev_app_distr.
  - now rewrite app_nil_r.
Qed.

Lemma dict_get_fold_commits (k : string) (log : list (string * list form))
      (d : dict) :
  dict_get k (fold_left apply_commit log d) =
    match last_commit k log with
    | Some v => Some v
    | None => dict_get k d
    end.
Proof.
  induction log as [|kv log IH] using rev_ind; [reflexivity|].
  rewrite fold_left_app, last_commit_snoc. simpl. unfold apply_commit at 1.
  destruct (String.eqb (fst kv) k) eqn:E.
  - apply String.eqb_eq in E. subst k. apply dict_get_set_same.
  - apply String.eqb_neq in E.
    rewrite dict_get_set_other by congruence. exact IH.
Qed.

(** ** Forms hold no quote *)

Section ScanInvariant.
Context {A : Type}.
Variable m : string -> option (A * nat).
Variable P : A -> Prop.
Hypothesis m_ok : forall s a n, m s = Some (a, n) -> P a.

Lemma scan_from_matches (s : string) (k : nat) :
  Forall P (Re.matches (Re.scan_from m k s)).
Proof.
  revert k; induction s as [|c r IH]; intros k; simpl; [constructor|].
  destruct k as [|k]; [|apply IH].
  destruct (m (String c r)) as [[a n]|] eqn:E; simpl; [|apply IH].
  constructor; [eapply m_ok; eassumption | apply IH].
Qed.

Lemma findall_all (s : string) : Forall P (Re.findall m s).
Proof. apply scan_from_matches. Qed.
End ScanInvariant.

Lemma contains_cons_false (c : ascii) (r : string) (a : ascii) :
  Ascii.eqb c a = false ->
  Str.contains r (String a "") = false ->
  Str.contains (String c r) (String a "") = false.
Proof. intros Hc Hr. simpl in *. now rewrite Hc, Hr. Qed.

Lemma span_except (a : ascii) (s x y : string) :
  Str.span (Chr.except a) s = (x, y) -> Str.contains x (String a "") = false.
Proof.
  revert x y; induction s as [|c r IH]; intros x y H; simpl in H.
  - now injection H as <- <-.
  - destruct (Chr.except a c) eqn:E.
    + destruct (Str.span (Chr.except a) r) as [x' y'] eqn:Er.
      injection H as <- <-. apply contains_cons_false; [|eapply IH; reflexivity].
      unfold Chr.except in E. now apply negb_true_iff in E.
    + now injection H as <- <-.
Qed.

Lemma FORM_PATTERN_quote_free (s : string) (f : form) (n : nat) :
  FORM_PATTERN s = Some (f, n) -> form_quote_free f.
Proof.
  unfold FORM_PATTERN. destruct (Str.startswith s "['"); [|discriminate].
  destruct (Str.span (Chr.except "'") (Str.drop 2 s)) as [code r1] eqn:E1.
  destruct (Str.startswith r1 "'"); [|discriminate].
  destruct (Str.startswith _ ","); [|discriminate].
  destruct (Str.startswith _ "'"); [|discriminate].
  destruct (Str.span (Chr.except "'") (Str.drop 1 _)) as [name r4] eqn:E2.
  destruct (Str.startswith r4 "'"); [|discriminate].
  destruct (Str.startswith _ "]"); [|discriminate].
  intros H; injection H as <- _. split; unfold quote_free; simpl.
  - exact (span_except _ _ _ _ E1).
  - exact (span_except _ _ _ _ E2).
Qed.

Lemma parse_forms_quote_free (text : string) :
  Forall form_quote_free (parse_forms_from_text text).
Proof. apply findall_all. exact FORM_PATTERN_quote_free. Qed.

Lemma dict_set_quote_free (k : string) (v : list form) (d : dict) :
  Forall form_quote_free v -> dict_quote_free d ->
  dict_quote_free (dict_set k v d).
Proof.
  intros Hv Hd. induction Hd as [|[k' v'] d Hkv Hd IH]; simpl.
  - constructor; [exact Hv | constructor].
  - destruct (String.eqb k' k); constructor; auto.
Qed.

Lemma process_line_quote_free (st : state) (raw_line : string) :
  state_quote_free st -> state_quote_free (process_line st raw_line).
Proof.
  intros [He Hf]. unfold process_line.
  destruct (skipped _); [now split|].
  destruct (current_id st) as [id|].
  - destruct (Str.startswith _ "]"); split; simpl; auto.
    + now apply dict_set_quote_free.
    + apply Forall_app. split; [exact Hf | apply parse_forms_quote_free].
  - destruct (key_line _) as [[key rest]|]; [|now split].
    destruct (complete rest); split; simpl; auto.
    + apply dict_set_quote_free; [apply parse_forms_quote_free | exact He].
    + destruct (negb _ && negb _); [apply parse_forms_quote_free | constructor].
Qed.

Lemma run_quote_free (lines : list string) (st : state) :
  state_quote_free st -> state_quote_free (run st lines).
Proof.
  revert st; induction lines as [|l lines IH]; intros st H; [exact H|].
  apply IH. now apply process_line_quote_free.
Qed.

Lemma parse_lines_quote_free (text : string) :
  dict_quote_free (parse_lines text).
Proof.
  unfold parse_lines, finish.
  destruct (run_quote_free (Str.splitlines text) initial) as [He Hf].
  { split; constructor. }
  destruct (current_id _); [now apply dict_set_quote_free | exact He].
Qed.

(** ** The longest name *)

Lemma fold_longer_first (xs : list string) (x : string) :
  first_longest (fold_left longer xs x) (x :: xs).
Proof.
  induction xs as [|y xs IH] using rev_ind.
  - exists [], []. simpl. repeat split; constructor.
  - rewrite fold_left_app. simpl.
    destruct IH as (l1 & l2 & Hl & H1 & H2).
    set (r := fold_left longer xs x) in *.
    unfold longer at 1.
    destruct (Nat.ltb (String.length r) (String.length y)) eqn:E.
    + apply Nat.ltb_lt in E.
      exists (l1 ++ r :: l2)%list, []. repeat split.
      * now rewrite app_comm_cons, Hl.
      * apply Forall_app. split.
        -- eapply Forall_impl; [|exact H1]. simpl. intros; lia.
        -- constructor; [exact E|].
           eapply Forall_impl; [|exact H2]. simpl. intros; lia.
      * constructor.
    + apply Nat.ltb_ge in E.
      exists l1, (l2 ++ [y])%list. repeat split.
      * rewrite app_comm_cons, Hl, <- app_assoc. reflexivity.
      * exact H1.
      * apply Forall_app. split; [exact H2|]. constructor; [exact E | constructor].
Qed.

Lemma max_by_len_first (x : string) (xs : list string) :
  first_longest (max_by_len (x :: xs)) (x :: xs).
Proof. apply fold_longer_first. Qed.

(** ** Trailing characters *)

Lemma rstrip_by_all (p : ascii -> bool) (z : string) :
  all_chars p z = true -> Str.rstrip_by p z = "".
Proof.
  induction z as [|c r IH]; intros H; [reflexivity|].
  simpl in *. apply andb_true_iff in H as [Hc Hr].
  now rewrite (IH Hr), Hc.
Qed.

Lemma rstrip_by_app_all (p : ascii -> bool) (s z : string) :
  all_chars p z = true -> Str.rstrip_by p (s ++ z) = Str.rstrip_by p s.
Proof.
  intros H. induction s as [|c r IH]; simpl.
  - now apply rstrip_by_all.
  - now rewrite IH.
Qed.

Lemma all_chars_repeat (p : ascii -> bool) (c : ascii) (n : nat) :
  p c = true -> all_chars p (Str.repeat c n) = true.
Proof. intros H. induction n as [|n IH]; simpl; [reflexivity | now rewrite H, IH]. Qed.

Lemma endswith_cons_char (c a : ascii) (r : string) :
  r <> "" ->
  Str.endswith (String c r) (String a "") = Str.endswith r (String a "").
Proof.
  intros Hr. cbn [Str.endswith]. destruct r as [|d r']; [congruence|].
  destruct (String.eqb_spec (String c (String d r')) (String a ""));
    [discriminate | reflexivity].
Qed.

Lemma rstrip_by_not_ends (a : ascii) (s : string) :
  Str.endswith (Str.rstrip_by (Chr.only a) s) (String a "") = false.
Proof.
  induction s as [|c r IH]; [reflexivity|].
  simpl. destruct (Str.rstrip_by (Chr.only a) r) as [|d r'] eqn:E.
  - unfold Chr.only. destruct (Ascii.eqb c a) eqn:Ec; [reflexivity|].
    simpl. now rewrite Ec.
  - rewrite endswith_cons_char by discriminate. exact IH.
Qed.

Lemma rstrip_commas_repeat (line : string) (n : nat) :
  Str.rstrip_commas (line ++ Str.repeat "," n) = Str.rstrip_commas line.
Proof.
  apply rstrip_by_app_all. now apply all_chars_repeat.
Qed.

(** ** Lines *)

Lemma splitlines_first_line (a t : string) :
  no_linebreak a = true ->
  Str.splitlines (a ++ String Chr.LF t) = a :: Str.splitlines t.
Proof.
  induction a as [|c a IH]; intros H.
  - simpl. now destruct t.
  - unfold no_linebreak in *. simpl in H. apply andb_true_iff in H as [Hc Ha].
    apply negb_true_iff in Hc.
    change (String c a ++ String Chr.LF t) with (String c (a ++ String Chr.LF t)).
    cbn [Str.splitlines]. now rewrite Hc, (IH Ha).
Qed.

Lemma line_count_break (c : ascii) (r : string) :
  Chr.islinebreak c = true ->
  line_count (String c r) = S (line_count (after_break c r)).
Proof.
  intros H. unfold line_count. cbn [Str.splitlines]. rewrite H.
  unfold after_break. destruct r as [|d r']; [reflexivity|].
  now destruct (Ascii.eqb c Chr.CR && Ascii.eqb d Chr.LF).
Qed.

Lemma line_count_plain (c : ascii) (r : string) :
  Chr.islinebreak c = false ->
  line_count (String c r) = Nat.max 1 (line_count r).
Proof.
  intros H. unfold line_count. cbn [Str.splitlines]. rewrite H.
  now destruct (Str.splitlines r).
Qed.

Lemma line_count_after_break (c : ascii) (r : string) :
  line_count (after_break c r) <= line_count r.
Proof.
  unfold after_break. destruct r as [|d r']; [lia|].
  destruct (Ascii.eqb c Chr.CR && Ascii.eqb d Chr.LF) eqn:E; [|lia].
  apply andb_true_iff in E as [_ E]. apply Ascii.eqb_eq in E. subst d.
  rewrite line_count_break by reflexivity. simpl.
  pose proof (line_count_break Chr.LF r' eq_refl).
  destruct r'; simpl; lia.
Qed.

Lemma line_count_tail (c : ascii) (r : string) :
  line_count r <= line_count (String c r).
Proof.
  destruct (Chr.islinebreak c) eqn:E.
  - rewrite (line_count_break _ _ E).
    unfold after_break. destruct r as [|d r']; [simpl; lia|].
    destruct (Ascii.eqb c Chr.CR && Ascii.eqb d Chr.LF) eqn:E'; [|lia].
    apply andb_true_iff in E' as [_ E']. apply Ascii.eqb_eq in E'. subst d.
    rewrite (line_count_break Chr.LF r') by reflexivity.
    destruct r'; simpl; lia.
  - rewrite (line_count_plain _ _ E). lia.
Qed.

Lemma subseq_refl (s : string) : subseq s s.
Proof. induction s; constructor; assumption. Qed.

Lemma subseq_drop (n : nat) (s : string) : subseq (Str.drop n s) s.
Proof.
  revert s; induction n as [|n IH]; intros [|c r]; simpl;
    try apply subseq_refl.
  constructor. apply IH.
Qed.

Lemma subseq_trans (a b c : string) : subseq a b -> subseq b c -> subseq a c.
Proof.
  intros Hab Hbc. revert a Hab.
  induction Hbc as [|x b c Hbc IH|x b c Hbc IH]; intros a Hab.
  - exact Hab.
  - constructor. now apply IH.
  - inversion Hab; subst; constructor; now apply IH.
Qed.

Lemma line_count_subseq (s t : string) :
  subseq t s -> line_count t <= line_count s.
Proof.
  remember (String.length s) as n eqn:Hn.
  assert (Hle : String.length s <= n) by lia. clear Hn.
  revert s t Hle. induction n as [|n IH]; intros s t Hle H.
  { destruct s; [|simpl in Hle; lia]. inversion H; subst. lia. }
  inversion H as [|c t0 r Hr|c t' r Hr]; subst.
  - lia.
  - etransitivity; [|apply line_count_tail].
    apply IH; [simpl in Hle; lia | exact Hr].
  - simpl in Hle.
    destruct (Chr.islinebreak c) eqn:E.
    2:{ rewrite !(line_count_plain _ _ E).
        pose proof (IH r t' ltac:(lia) Hr). lia. }
    rewrite !(line_count_break _ _ E). apply le_n_S.
    unfold after_break at 2. destruct r as [|d r''].
    { inversion Hr; subst. simpl. lia. }
    destruct (Ascii.eqb c Chr.CR && Ascii.eqb d Chr.LF) eqn:E'.
    + apply andb_true_iff in E' as [Ec Ed].
      apply Ascii.eqb_eq in Ed. subst d. simpl in Hle.
      inversion Hr as [|c0 t0 r0 Hr'|c0 t'' r0 Hr']; subst.
      * etransitivity; [apply line_count_after_break|].
        apply IH; [lia | exact Hr'].
      * unfold after_break. rewrite Ec. simpl.
        apply IH; [lia | exact Hr'].
    + etransitivity; [apply line_count_after_break|].
      apply IH; [lia | exact Hr].
Qed.

Section ScanSubseq.
Context {A : Type}.
Variable m : string -> option (A * nat).

Lemma unmatched_scan_from_subseq (s : string) (k : nat) :
  subseq (Re.unmatched (Re.scan_from m k s)) s.
Proof.
  revert k; induction s as [|c r IH]; intros k; simpl; [constructor|].
  destruct k as [|k]; [|constructor; apply IH].
  destruct (m (String c r)) as [[a n]|]; simpl; constructor; apply IH.
Qed.
End ScanSubseq.

Lemma strip_comments_subseq (s : string) : subseq (strip_comments s) s.
Proof. apply unmatched_scan_from_subseq. Qed.

Lemma strip_comments_line_count (s : string) :
  line_count (strip_comments s) <= line_count s.
Proof. apply line_count_subseq, strip_comments_subseq. Qed.

(** ** Key lines *)

Lemma rstrip_by_startswith (p : ascii -> bool) (s : string) (a : ascii) :
  Str.startswith (Str.rstrip_by p s) (String a "") = true ->
  Str.startswith s (String a "") = true.
Proof.
  destruct s as [|c r]; [discriminate|].
  simpl. destruct (Str.rstrip_by p r); [destruct (p c)|]; simpl; auto.
  discriminate.
Qed.

Lemma KEY_PATTERN_quote (s id value : string) :
  KEY_PATTERN s = Some (id, value) -> Str.startswith s "'" = true.
Proof.
  unfold KEY_PATTERN. now destruct (Str.startswith s "'").
Qed.

Lemma key_line_not_skipped (line key rest : string) :
  key_line line = Some (key, rest) -> skipped line = false.
Proof.
  unfold key_line. destruct (KEY_PATTERN _) as [[id value]|] eqn:E; [|discriminate].
  intros _. apply KEY_PATTERN_quote, rstrip_by_startswith in E.
  destruct line as [|c r]; [discriminate|].
  simpl in E. rewrite andb_true_r in E. apply Ascii.eqb_eq in E. now subst c.
Qed.

(** A key line that opens a block which is never closed. *)
Lemma run_open_block (st : state) (raw_line key rest : string)
      (body : list string) :
  current_id st = None ->
  key_line (Str.strip raw_line) = Some (key, rest) ->
  complete rest = false ->
  (forall l, In l body -> Str.startswith (Str.strip l) "]" = false) ->
  finish (run st (raw_line :: body)) =
    dict_set key
      ((if negb (String.eqb rest "") && negb (String.eqb rest "[")
        then parse_forms_from_text rest else []) ++ block_forms body)%list
      (entries st).
Proof.
  intros Hc Hk Hr Hb. cbn [run fold_left]. fold (run (process_line st raw_line) body).
  rewrite (process_line_open st raw_line key rest Hc
             (key_line_not_skipped _ _ _ Hk) Hk Hr).
  now rewrite (run_inside body (State (entries st) (Some key) _) key eq_refl Hb).
Qed.

(** ** Keys are unique *)

Lemma dict_set_keys (k : string) (v : list form) (d : dict) :
  forall k', In k' (map fst (dict_set k v d)) -> k' = k \/ In k' (map fst d).
Proof.
  induction d as [|[k0 v0] d IH]; simpl; intros k' H.
  - destruct H as [H|[]]; now left.
  - destruct (String.eqb k0 k) eqn:E; simpl in H.
    + destruct H as [H|H]; [now left | right; now right].
    + destruct H as [H|H]; [right; now left|].
      destruct (IH _ H) as [H'|H']; [now left | right; now right].
Qed.

Lemma dict_set_NoDup (k : string) (v : list form) (d : dict) :
  NoDup (map fst d) -> NoDup (map fst (dict_set k v d)).
Proof.
  induction d as [|[k0 v0] d IH]; simpl; intros H.
  - constructor; [intros [] | constructor].
  - inversion H as [|x l Hx Hd]; subst.
    destruct (String.eqb k0 k) eqn:E; simpl.
    + apply String.eqb_eq in E. subst k0. now constructor.
    + constructor; [|now apply IH].
      intros Hin. apply dict_set_keys in Hin as [->|Hin]; [|contradiction].
      now rewrite String.eqb_refl in E.
Qed.

Lemma fold_commits_NoDup (log : list (string * list form)) (d : dict) :
  NoDup (map fst d) -> NoDup (map fst (fold_left apply_commit log d)).
Proof.
  revert d; induction log as [|kv log IH]; intros d H; [exact H|].
  simpl. apply IH. now apply dict_set_NoDup.
Qed.

(** ** Key lines from their parts *)

(** Appends put in right-nested form. *)
Ltac app_norm :=
  repeat first [rewrite !append_assoc | progress cbn [append Str.repeat]].

Lemma all_chars_app (p : ascii -> bool) (a b : string) :
  all_chars p (a ++ b) = all_chars p a && all_chars p b.
Proof.
  induction a as [|c a IH]; simpl; [reflexivity|].
  now rewrite IH, andb_assoc.
Qed.

Lemma span_app (p : ascii -> bool) (a b : string) :
  all_chars p a = true -> starts_outside p b ->
  Str.span p (a ++ b) = (a, b).
Proof.
  intros Ha Hb. induction a as [|c a IH]; simpl in *.
  - destruct b as [|d b]; [reflexivity|]. simpl in *. now rewrite Hb.
  - apply andb_true_iff in Ha as [Hc Ha]. now rewrite Hc, (IH Ha).
Qed.

Lemma lstrip_by_app (p : ascii -> bool) (a b : string) :
  all_chars p a = true -> starts_outside p b ->
  Str.lstrip_by p (a ++ b) = b.
Proof.
  intros Ha Hb. induction a as [|c a IH]; simpl in *.
  - destruct b as [|d b]; [reflexivity|]. simpl in *. now rewrite Hb.
  - apply andb_true_iff in Ha as [Hc Ha]. now rewrite Hc, (IH Ha).
Qed.

Lemma rstrip_by_cons (p : ascii -> bool) (c : ascii) (r : string) :
  Str.rstrip_by p (String c r) =
    match Str.rstrip_by p r with
    | EmptyString => if p c then EmptyString else String c EmptyString
    | String d r' => String c (String d r')
    end.
Proof. reflexivity. Qed.

Lemma rstrip_by_fixed (p : ascii -> bool) (s : string) (a : ascii) :
  Str.endswith s (String a "") = true -> p a = false ->
  Str.rstrip_by p s = s.
Proof.
  intros Hs Ha. induction s as [|c r IH]; [reflexivity|].
  destruct r as [|d r'].
  - cbn [Str.endswith] in Hs.
    destruct (String.eqb_spec (String c "") (String a "")) as [E|E];
      [|discriminate].
    injection E as ->. simpl. now rewrite Ha.
  - rewrite endswith_cons_char in Hs by discriminate.
    now rewrite rstrip_by_cons, (IH Hs).
Qed.

Lemma endswith_app (s p : string) : Str.endswith (s ++ p) p = true.
Proof.
  induction s as [|c r IH].
  - change ("" ++ p) with p.
    destruct p; cbn [Str.endswith]; now rewrite String.eqb_refl.
  - change (String c r ++ p) with (String c (r ++ p)).
    cbn [Str.endswith]. rewrite IH. apply orb_true_r.
Qed.

Lemma strip_fixed (s : string) (a b : ascii) :
  Str.startswith s (String a "") = true -> Chr.isspace a = false ->
  Str.endswith s (String b "") = true -> Chr.isspace b = false ->
  Str.strip s = s.
Proof.
  intros Ha Hna Hb Hnb. unfold Str.strip.
  rewrite (rstrip_by_fixed _ _ _ Hb Hnb).
  destruct s as [|c r]; [reflexivity|].
  simpl in Ha. rewrite andb_true_r in Ha. apply Ascii.eqb_eq in Ha. subst c.
  simpl. now rewrite Hna.
Qed.

Lemma strip_around (lead s trail : string) (a b : ascii) :
  all_chars Chr.isspace lead = true ->
  all_chars Chr.isspace trail = true ->
  Str.startswith s (String a "") = true -> Chr.isspace a = false ->
  Str.endswith s (String b "") = true -> Chr.isspace b = false ->
  Str.strip (lead ++ s ++ trail) = s.
Proof.
  intros Hl Ht Ha Hna Hb Hnb. unfold Str.strip.
  rewrite <- append_assoc, (rstrip_by_app_all _ _ _ Ht).
  assert (E : Str.endswith (lead ++ s) (String b "") = true).
  { clear Hl. induction lead as [|c l IH]; [exact Hb|].
    change (String c l ++ s) with (String c (l ++ s)).
    rewrite endswith_cons_char; [exact IH|].
    destruct l; [|discriminate]. simpl. intros ->. discriminate. }
  rewrite (rstrip_by_fixed _ _ _ E Hnb).
  apply lstrip_by_app; [exact Hl|].
  destruct s as [|c r]; [exact I|].
  simpl in *. rewrite andb_true_r in Ha. apply Ascii.eqb_eq in Ha. now subst c.
Qed.

Lemma span_all (p : ascii -> bool) (s : string) :
  all_chars p s = true -> Str.span p s = (s, "").
Proof.
  intros H. rewrite <- (append_nil_r s) at 1. now apply span_app.
Qed.

Lemma all_chars_impl (p q : ascii -> bool) (s : string) :
  (forall c, p c = true -> q c = true) ->
  all_chars p s = true -> all_chars q s = true.
Proof.
  intros Hpq. induction s as [|c r IH]; simpl; [reflexivity|].
  intros H. apply andb_true_iff in H as [Hc Hr].
  now rewrite (Hpq _ Hc), (IH Hr).
Qed.

Lemma key_value_line (v : string) :
  v <> "" -> no_linebreak v = true -> key_value v = Some v.
Proof.
  intros Hv Hl. unfold key_value.
  rewrite span_all.
  - destruct v; [congruence | reflexivity].
  - revert Hl. apply all_chars_impl. intros c Hc. unfold Chr.except.
    apply negb_true_iff. apply negb_true_iff in Hc.
    destruct (Ascii.eqb_spec c Chr.LF) as [->|]; [discriminate | reflexivity].
Qed.

Lemma key_spaces_value_app (ws v : string) :
  all_chars Chr.isspace ws = true ->
  starts_outside Chr.isspace v -> v <> "" -> no_linebreak v = true ->
  key_spaces_value (ws ++ v) = Some v.
Proof.
  intros Hw Hs Hv Hl. induction ws as [|c w IH]; simpl in *.
  - destruct v as [|d v']; [congruence|]. simpl in Hs.
    cbn [key_spaces_value]. rewrite Hs. now apply key_value_line.
  - apply andb_true_iff in Hw as [Hc Hw]. now rewrite Hc, (IH Hw).
Qed.

(** The pattern on a line made of its parts. *)
Lemma KEY_PATTERN_parts (id ws1 ws2 value : string) :
  id <> "" -> all_chars Chr.isdigit id = true ->
  all_chars Chr.isspace ws1 = true ->
  all_chars Chr.isspace ws2 = true ->
  starts_outside Chr.isspace value -> value <> "" ->
  no_linebreak value = true ->
  KEY_PATTERN ("'" ++ id ++ "'" ++ ws1 ++ ":" ++ ws2 ++ value)
  = Some (id, value).
Proof.
  intros Hid Hd H1 H2 Hs Hv Hl. unfold KEY_PATTERN.
  change (Str.startswith ("'" ++ id ++ "'" ++ ws1 ++ ":" ++ ws2 ++ value) "'")
    with true.
  change (Str.drop 1 ("'" ++ id ++ "'" ++ ws1 ++ ":" ++ ws2 ++ value))
    with (id ++ "'" ++ ws1 ++ ":" ++ ws2 ++ value).
  rewrite (span_app _ _ _ Hd) by reflexivity.
  destruct id as [|d id']; [congruence|].
  change (Str.startswith ("'" ++ ws1 ++ ":" ++ ws2 ++ value) "'") with true.
  change (Str.drop 1 ("'" ++ ws1 ++ ":" ++ ws2 ++ value))
    with (ws1 ++ ":" ++ ws2 ++ value).
  rewrite (lstrip_by_app _ _ _ H1) by reflexivity.
  change (Str.startswith (":" ++ ws2 ++ value) ":") with true.
  change (Str.drop 1 (":" ++ ws2 ++ value)) with (ws2 ++ value).
  now rewrite key_spaces_value_app.
Qed.

Lemma endswith_split (s p : string) :
  Str.endswith s p = true -> exists s0, s = s0 ++ p.
Proof.
  induction s as [|c r IH]; cbn [Str.endswith]; intros H.
  - rewrite orb_false_r in H. apply String.eqb_eq in H. subst p. now exists "".
  - apply orb_true_iff in H as [H|H].
    + apply String.eqb_eq in H. subst p. now exists "".
    + destruct (IH H) as [s0 ->]. now exists (String c s0).
Qed.

Lemma rstrip_by_none (p : ascii -> bool) (z : string) :
  all_chars (fun c => negb (p c)) z = true -> Str.rstrip_by p z = z.
Proof.
  induction z as [|c r IH]; intros H; [reflexivity|].
  simpl in H. apply andb_true_iff in H as [Hc Hr]. apply negb_true_iff in Hc.
  rewrite rstrip_by_cons, (IH Hr), Hc. now destruct r.
Qed.

Lemma rstrip_by_app_keep (p : ascii -> bool) (s z : string) :
  z <> "" -> all_chars (fun c => negb (p c)) z = true ->
  Str.rstrip_by p (s ++ z) = s ++ z.
Proof.
  intros Hz Hp. induction s as [|c r IH].
  - now apply rstrip_by_none.
  - change (String c r ++ z) with (String c (r ++ z)).
    rewrite rstrip_by_cons, IH.
    destruct (r ++ z) eqn:E; [|reflexivity].
    destruct r; [|discriminate]. simpl in E. congruence.
Qed.

Lemma space_not_comma (ws : string) :
  all_chars Chr.isspace ws = true ->
  all_chars (fun c => negb (Chr.only "," c)) ws = true.
Proof.
  apply all_chars_impl. intros c Hc. apply negb_true_iff. unfold Chr.only.
  destruct (Ascii.eqb_spec c ",") as [->|]; [discriminate | reflexivity].
Qed.

(** The key and the value of a key line made of its parts: the quoted
    digits, a colon with white space around it, a value in brackets, and
    after it white space and any number of commas. *)
Lemma key_line_parts (id ws1 ws2 rest ws3 : string) (n : nat) :
  id <> "" -> all_chars Chr.isdigit id = true ->
  all_chars Chr.isspace ws1 = true ->
  all_chars Chr.isspace ws2 = true ->
  all_chars Chr.isspace ws3 = true ->
  Str.startswith rest "[" = true -> Str.endswith rest "]" = true ->
  no_linebreak (rest ++ ws3) = true ->
  key_line ("'" ++ id ++ "'" ++ ws1 ++ ":" ++ ws2 ++ rest ++ ws3
            ++ Str.repeat "," n)
  = Some (id, rest).
Proof.
  intros Hid Hd H1 H2 H3 Hs He Hl.
  destruct (endswith_split _ _ He) as [r0 Hr].
  assert (Hc : all_chars (fun c => negb (Chr.only "," c)) ("]" ++ ws3) = true).
  { simpl. now apply space_not_comma. }
  assert (Hv : Str.rstrip_commas (rest ++ ws3) = rest ++ ws3).
  { rewrite Hr, append_assoc. now apply rstrip_by_app_keep. }
  assert (Hk : Str.rstrip_commas
                 ("'" ++ id ++ "'" ++ ws1 ++ ":" ++ ws2 ++ rest ++ ws3
                  ++ Str.repeat "," n)
               = "'" ++ id ++ "'" ++ ws1 ++ ":" ++ ws2 ++ rest ++ ws3).
  { replace ("'" ++ id ++ "'" ++ ws1 ++ ":" ++ ws2 ++ rest ++ ws3
             ++ Str.repeat "," n)
      with (("'" ++ id ++ "'" ++ ws1 ++ ":" ++ ws2 ++ rest ++ ws3)
            ++ Str.repeat "," n)
      by (now rewrite !append_assoc).
    rewrite rstrip_commas_repeat.
    replace ("'" ++ id ++ "'" ++ ws1 ++ ":" ++ ws2 ++ rest ++ ws3)
      with (("'" ++ id ++ "'" ++ ws1 ++ ":" ++ ws2 ++ r0) ++ "]" ++ ws3)
      by (now rewrite Hr, !append_assoc).
    now apply rstrip_by_app_keep. }
  unfold key_line. rewrite Hk.
  assert (Hrest : exists r1, rest = String "[" r1).
  { destruct rest as [|c r1]; [discriminate|]. simpl in Hs.
    rewrite andb_true_r in Hs. apply Ascii.eqb_eq in Hs. subst c. now exists r1. }
  destruct Hrest as [r1 Hr1].
  rewrite (KEY_PATTERN_parts id ws1 ws2 (rest ++ ws3)); try assumption.
  - rewrite Hv. f_equal. f_equal.
    rewrite <- (append_nil_r (rest ++ ws3)), append_assoc, append_nil_r.
    change (rest ++ ws3) with ("" ++ rest ++ ws3).
    now apply (strip_around "" rest ws3 "[" "]").
  - now rewrite Hr1.
  - now rewrite Hr1.
Qed.

Lemma repeat_snoc (c : ascii) (n : nat) :
  Str.repeat c (S n) = Str.repeat c n ++ String c "".
Proof. induction n as [|n IH]; [reflexivity|]. simpl in *. now rewrite <- IH. Qed.

Lemma strip_entry_line (lead id ws1 ws2 rest ws3 trail : string) (n : nat) :
  all_chars Chr.isspace lead = true ->
  all_chars Chr.isspace ws3 = true ->
  all_chars Chr.isspace trail = true ->
  Str.endswith rest "]" = true ->
  exists ws3',
    Str.strip (entry_line lead id ws1 ws2 rest ws3 n trail)
    = "'" ++ id ++ "'" ++ ws1 ++ ":" ++ ws2 ++ rest ++ ws3' ++ Str.repeat "," n
    /\ (ws3' = "" \/ ws3' = ws3).
Proof.
  intros Hl H3 Ht He. unfold entry_line. destruct n as [|n].
  - exists "". split; [|now left].
    replace (lead ++ "'" ++ id ++ "'" ++ ws1 ++ ":" ++ ws2 ++ rest ++ ws3
             ++ Str.repeat "," 0 ++ trail)
      with (lead ++ ("'" ++ id ++ "'" ++ ws1 ++ ":" ++ ws2 ++ rest)
            ++ (ws3 ++ trail))
      by (now app_norm).
    simpl (rest ++ "" ++ Str.repeat "," 0). rewrite append_nil_r.
    apply (strip_around _ _ _ "'" "]"); try reflexivity; try assumption.
    + now rewrite all_chars_app, H3, Ht.
    + destruct (endswith_split _ _ He) as [r0 ->].
      replace ("'" ++ id ++ "'" ++ ws1 ++ ":" ++ ws2 ++ r0 ++ "]")
        with (("'" ++ id ++ "'" ++ ws1 ++ ":" ++ ws2 ++ r0) ++ "]")
        by (now app_norm).
      apply endswith_app.
  - exists ws3. split; [|now right].
    replace (lead ++ "'" ++ id ++ "'" ++ ws1 ++ ":" ++ ws2 ++ rest ++ ws3
             ++ Str.repeat "," (S n) ++ trail)
      with (lead ++ ("'" ++ id ++ "'" ++ ws1 ++ ":" ++ ws2 ++ rest ++ ws3
                     ++ Str.repeat "," (S n)) ++ trail)
      by (now app_norm).
    apply (strip_around _ _ _ "'" ","); try reflexivity; try assumption.
    rewrite repeat_snoc.
    replace ("'" ++ id ++ "'" ++ ws1 ++ ":" ++ ws2 ++ rest ++ ws3
             ++ Str.repeat "," n ++ ",")
      with (("'" ++ id ++ "'" ++ ws1 ++ ":" ++ ws2 ++ rest ++ ws3
             ++ Str.repeat "," n) ++ ",")
      by (now app_norm).
    apply endswith_app.
Qed.

Lemma key_line_entry_line (lead id ws1 ws2 rest ws3 trail : string) (n : nat) :
  all_chars Chr.isspace (lead ++ ws1 ++ ws2 ++ ws3 ++ trail) = true ->
  id <> "" -> all_chars Chr.isdigit id = true ->
  Str.startswith rest "[" = true -> Str.endswith rest "]" = true ->
  no_linebreak (rest ++ ws3) = true ->
  key_line (Str.strip (entry_line lead id ws1 ws2 rest ws3 n trail))
  = Some (id, rest).
Proof.
  intros Hw Hid Hd Hs He Hl.
  rewrite !all_chars_app in Hw.
  apply andb_true_iff in Hw as [Hlead Hw].
  apply andb_true_iff in Hw as [H1 Hw].
  apply andb_true_iff in Hw as [H2 Hw].
  apply andb_true_iff in Hw as [H3 Ht].
  destruct (strip_entry_line lead id ws1 ws2 rest ws3 trail n Hlead H3 Ht He)
    as (ws3' & -> & Hws3).
  apply key_line_parts; try assumption.
  - destruct Hws3 as [-> | ->]; [reflexivity | assumption].
  - destruct Hws3 as [-> | ->]; [|assumption].
    unfold no_linebreak in *. rewrite all_chars_app in *.
    apply andb_true_iff in Hl as [Hl _]. now rewrite Hl.
Qed.

(** ** Commas after a line *)

Lemma length_lstrip_by (p : ascii -> bool) (s : string) :
  String.length (Str.lstrip_by p s) <= String.length s.
Proof.
  induction s as [|c r IH]; simpl; [lia|].
  destruct (p c); simpl; lia.
Qed.

Lemma length_rstrip_by (p : ascii -> bool) (s : string) :
  String.length (Str.rstrip_by p s) <= String.length s.
Proof.
  induction s as [|c r IH]; [simpl; lia|].
  rewrite rstrip_by_cons. destruct (Str.rstrip_by p r); simpl in *.
  - destruct (p c); simpl; lia.
  - lia.
Qed.

(** A trimmed text does not begin with white space. *)
Lemma strip_fixed_head (c : ascii) (r : string) :
  Str.strip (String c r) = String c r -> Chr.isspace c = false.
Proof.
  unfold Str.strip. intros H.
  destruct (Chr.isspace c) eqn:E; [exfalso | reflexivity].
  pose proof (f_equal String.length H) as L.
  rewrite rstrip_by_cons in L.
  pose proof (length_rstrip_by Chr.isspace r) as Lr.
  destruct (Str.rstrip_by Chr.isspace r) as [|d r'] eqn:Er.
  - rewrite E in L. simpl in L. lia.
  - cbn [Str.lstrip_by] in L. rewrite E in L.
    pose proof (length_lstrip_by Chr.isspace (String d r')) as Ll.
    simpl in *. lia.
Qed.

Lemma strip_commas_after (line : string) (n : nat) :
  Str.strip line = line ->
  Str.strip (line ++ Str.repeat "," n) = line ++ Str.repeat "," n.
Proof.
  intros H. destruct n as [|n]; [simpl; now rewrite append_nil_r|].
  unfold Str.strip.
  rewrite (rstrip_by_fixed _ _ ",").
  - destruct line as [|c r]; [reflexivity|].
    change (String c r ++ Str.repeat "," (S n))
      with (String c (r ++ Str.repeat "," (S n))).
    cbn [Str.lstrip_by]. now rewrite (strip_fixed_head c r H).
  - rewrite repeat_snoc, <- append_assoc. apply endswith_app.
  - reflexivity.
Qed.

(** Commas after a text do not complete a prefix that holds no comma. *)
Lemma startswith_commas_after (p s : string) (n : nat) :
  Str.contains p "," = false ->
  s <> "" \/ p <> "" ->
  Str.startswith (s ++ Str.repeat "," n) p = Str.startswith s p.
Proof.
  revert s. induction p as [|a p IH]; intros s Hp Hs.
  - now destruct s.
  - cbn [Str.contains] in Hp. apply orb_false_iff in Hp as [Ha Hp].
    simpl in Ha. rewrite andb_true_r in Ha.
    destruct s as [|c r].
    + destruct n as [|n]; [reflexivity|].
      cbn [append Str.repeat Str.startswith].
      now rewrite Ascii.eqb_sym, Ha.
    + change (String c r ++ Str.repeat "," n)
        with (String c (r ++ Str.repeat "," n)).
      cbn [Str.startswith]. destruct (Ascii.eqb c a); [|reflexivity]. simpl.
      destruct p as [|b p'].
      * now destruct r.
      * apply IH; [exact Hp | right; discriminate].
Qed.

(** Outside a block, commas after a trimmed line change nothing. *)
Lemma process_line_commas_after (st : state) (line : string) (n : nat) :
  current_id st = None ->
  Str.strip line = line ->
  process_line st (line ++ Str.repeat "," n) = process_line st line.
Proof.
  intros Hc H. unfold process_line.
  rewrite (strip_commas_after line n H), H, Hc.
  assert (K : key_line (line ++ Str.repeat "," n) = key_line line).
  { unfold key_line. now rewrite rstrip_commas_repeat. }
  rewrite K.
  destruct line as [|c r].
  - simpl (skipped ""). cbv iota.
    replace (key_line "") with (@None (string * string)) by reflexivity.
    now destruct (skipped _).
  - unfold skipped.
    now rewrite !startswith_commas_after by
        (try reflexivity; left; discriminate).
Qed.

(** ** A line that opens a comment *)

Lemma rstrip_by_cons_keep (p : ascii -> bool) (c : ascii) (r : string) :
  p c = false -> exists r', Str.rstrip_by p (String c r) = String c r'.
Proof.
  intros H. simpl. destruct (Str.rstrip_by p r) as [|d r'].
  - rewrite H. now exists "".
  - now exists (String d r').
Qed.

Lemma strip_cons_keep (c : ascii) (r : string) :
  Chr.isspace c = false -> exists r', Str.strip (String c r) = String c r'.
Proof.
  intros H. unfold Str.strip.
  destruct (rstrip_by_cons_keep Chr.isspace c r H) as [r' ->].
  simpl. rewrite H. now exists r'.
Qed.

(** A line that begins with a slash is no key line. *)
Lemma key_line_slash (raw_line : string) :
  Str.startswith raw_line "/" = true ->
  key_line (Str.strip raw_line) = None.
Proof.
  intros H. destruct raw_line as [|c r]; [discriminate|].
  simpl in H. rewrite andb_true_r in H. apply Ascii.eqb_eq in H. subst c.
  destruct (strip_cons_keep "/" r eq_refl) as [r' ->].
  unfold key_line, Str.rstrip_commas.
  now destruct (rstrip_by_cons_keep (Chr.only ",") "/" r' eq_refl) as [r'' ->].
Qed.

(** A first line that opens a comment which is never closed is passed
    over, and the lines after it are read as if it were not there. *)
Lemma dangling_first_line (junk tail : string) :
  no_linebreak junk = true ->
  find_close (junk ++ nl ++ tail) = None ->
  parse_typescript_map ("/*" ++ junk ++ nl ++ tail) = parse_typescript_map tail.
Proof.
  intros Hj Hc. unfold parse_typescript_map.
  assert (Ht : find_close tail = None).
  { pose proof (find_close_none_drop (String.length (junk ++ nl)) _ Hc) as H.
    rewrite <- append_assoc in H. now rewrite drop_app_length in H. }
  rewrite (strip_comments_no_close tail Ht).
  replace (strip_comments ("/*" ++ junk ++ nl ++ tail))
    with ("/*" ++ junk ++ nl ++ tail).
  2:{ symmetry. change ("/*" ++ junk ++ nl ++ tail)
        with (String "/" (String "*" (junk ++ nl ++ tail))).
      rewrite !strip_comments_pass;
        [now rewrite (strip_comments_no_close _ Hc) | ..];
        unfold COMMENT_PATTERN; simpl in Hc |- *; rewrite ?Hc; reflexivity. }
  unfold parse_lines.
  change ("/*" ++ junk ++ nl ++ tail)
    with (("/*" ++ junk) ++ String Chr.LF tail).
  rewrite splitlines_first_line by exact Hj.
  cbn [run fold_left].
  rewrite process_line_no_key; [reflexivity | reflexivity |].
  now apply key_line_slash.
Qed.

(** ** Lines put together *)

Lemma splitlines_break (c : ascii) (r : string) :
  Chr.islinebreak c = true ->
  Str.splitlines (String c r) = "" :: Str.splitlines (after_break c r).
Proof.
  intros H. cbn [Str.splitlines]. rewrite H. unfold after_break.
  destruct r as [|d r']; [reflexivity|].
  now destruct (Ascii.eqb c Chr.CR && Ascii.eqb d Chr.LF).
Qed.

Lemma splitlines_plain (c : ascii) (r : string) :
  Chr.islinebreak c = false ->
  Str.splitlines (String c r) =
    match Str.splitlines r with
    | [] => [String c ""]
    | l :: ls => String c l :: ls
    end.
Proof. intros H. cbn [Str.splitlines]. now rewrite H. Qed.

Lemma splitlines_nonempty (c : ascii) (r : string) :
  Str.splitlines (String c r) <> [].
Proof.
  destruct (Chr.islinebreak c) eqn:E.
  - now rewrite (splitlines_break _ _ E).
  - rewrite (splitlines_plain _ _ E). now destruct (Str.splitlines r).
Qed.




Lemma run_app (st : state) (l1 l2 : list string) :
  run st (l1 ++ l2) = run (run st l1) l2.
Proof. apply fold_left_app. Qed.


(** ** The text of a list of forms *)

Lemma quote_free_all (s : string) :
  quote_free s -> all_chars (Chr.except "'") s = true.
Proof.
  unfold quote_free. induction s as [|c r IH]; [reflexivity|].
  cbn [Str.contains all_chars]. intros H.
  apply orb_false_iff in H as [Hc Hr].
  cbn [Str.startswith] in Hc. rewrite andb_true_r in Hc.
  unfold Chr.except at 1. now rewrite Hc, (IH Hr).
Qed.

Lemma FORM_PATTERN_tuple (f : form) (tail : string) :
  form_quote_free f ->
  FORM_PATTERN (tuple_text f ++ tail)
  = Some (f, String.length (tuple_text f)).
Proof.
  intros [Hc Hn]. destruct f as [code name]. simpl in Hc, Hn.
  apply quote_free_all in Hc. apply quote_free_all in Hn.
  unfold FORM_PATTERN, tuple_text. cbn [fst snd].
  replace (("['" ++ code ++ "', '" ++ name ++ "']") ++ tail)
    with ("['" ++ code ++ "', '" ++ name ++ "']" ++ tail)
    by (now app_norm).
  change (Str.startswith ("['" ++ code ++ "', '" ++ name ++ "']" ++ tail) "['")
    with true.
  change (Str.drop 2 ("['" ++ code ++ "', '" ++ name ++ "']" ++ tail))
    with (code ++ "', '" ++ name ++ "']" ++ tail).
  cbv iota. rewrite (span_app _ _ _ Hc) by reflexivity.
  change (Str.startswith ("', '" ++ name ++ "']" ++ tail) "'") with true.
  cbv iota.
  change (Str.lstrip_by Chr.isspace
            (Str.drop 1 ("', '" ++ name ++ "']" ++ tail)))
    with (", '" ++ name ++ "']" ++ tail).
  change (Str.startswith (", '" ++ name ++ "']" ++ tail) ",") with true.
  cbv iota.
  change (Str.lstrip_by Chr.isspace
            (Str.drop 1 (", '" ++ name ++ "']" ++ tail)))
    with ("'" ++ name ++ "']" ++ tail).
  change (Str.startswith ("'" ++ name ++ "']" ++ tail) "'") with true.
  cbv iota.
  change (Str.drop 1 ("'" ++ name ++ "']" ++ tail))
    with (name ++ "']" ++ tail).
  rewrite (span_app _ _ _ Hn) by reflexivity.
  change (Str.startswith ("']" ++ tail) "'") with true. cbv iota.
  change (Str.lstrip_by Chr.isspace (Str.drop 1 ("']" ++ tail)))
    with ("]" ++ tail).
  change (Str.startswith ("]" ++ tail) "]") with true. cbv iota.
  change (Str.drop 1 ("]" ++ tail)) with tail.
  assert (L : forall x, String.length (x ++ tail) - String.length tail
                        = String.length x).
  { intros x. rewrite length_append. lia. }
  replace ("['" ++ code ++ "', '" ++ name ++ "']" ++ tail)
    with (("['" ++ code ++ "', '" ++ name ++ "']") ++ tail)
    by (now app_norm).
  now rewrite L.
Qed.

Lemma findall_tuple (f : form) (tail : string) :
  form_quote_free f ->
  Re.findall FORM_PATTERN (tuple_text f ++ tail)
  = f :: Re.findall FORM_PATTERN tail.
Proof.
  intros H. unfold Re.findall.
  rewrite (scan_match _ _ _ _ (FORM_PATTERN_tuple f tail H)).
  - now rewrite drop_app_length.
  - unfold tuple_text. simpl. lia.
  - unfold tuple_text. discriminate.
Qed.

Lemma findall_pass (c : ascii) (r : string) :
  Str.startswith (String c r) "['" = false ->
  Re.findall FORM_PATTERN (String c r) = Re.findall FORM_PATTERN r.
Proof.
  intros H. unfold Re.findall. rewrite scan_pass; [reflexivity|].
  unfold FORM_PATTERN. now rewrite H.
Qed.

Lemma tuples_text_head (fs : list form) (tail : string) :
  Str.startswith (tuples_text fs ++ "]" ++ tail) "'" = false.
Proof.
  destruct fs as [|f [|g fs]]; reflexivity.
Qed.

Lemma findall_tuples (fs : list form) :
  Forall form_quote_free fs ->
  Re.findall FORM_PATTERN (tuples_text fs ++ "]") = fs.
Proof.
  induction fs as [|f fs IH]; intros H; [reflexivity|].
  inversion H as [|x l Hf Hfs]; subst. specialize (IH Hfs).
  destruct fs as [|g fs].
  - cbn [tuples_text]. now rewrite findall_tuple.
  - change (tuples_text (f :: g :: fs))
      with (tuple_text f ++ ", " ++ tuples_text (g :: fs)).
    replace ((tuple_text f ++ ", " ++ tuples_text (g :: fs)) ++ "]")
      with (tuple_text f ++ ", " ++ tuples_text (g :: fs) ++ "]")
      by (now rewrite !append_assoc).
    rewrite findall_tuple by exact Hf.
    change (", " ++ tuples_text (g :: fs) ++ "]")
      with (String "," (String " " (tuples_text (g :: fs) ++ "]"))).
    rewrite !findall_pass; [now rewrite IH | | reflexivity].
    cbn [Str.startswith]. apply andb_false_intro1. reflexivity.
Qed.

(** The forms found in the text of a list of forms are these forms, in
    their order. *)
Lemma findall_value_text (fs : list form) :
  Forall form_quote_free fs ->
  Re.findall FORM_PATTERN (value_text fs) = fs.
Proof.
  intros H. unfold value_text.
  change ("[" ++ tuples_text fs ++ "]")
    with (String "[" (tuples_text fs ++ "]")).
  rewrite findall_pass; [now apply findall_tuples|].
  cbn [Str.startswith]. rewrite Ascii.eqb_refl. simpl.
  replace (tuples_text fs ++ "]") with (tuples_text fs ++ "]" ++ "")
    by reflexivity.
  pose proof (tuples_text_head fs "") as E. cbn [Str.startswith] in E.
  destruct (tuples_text fs ++ "]" ++ ""); [reflexivity|exact E].
Qed.

(** ** The last write *)

Lemma last_commit_last (k : string) (v : list form)
      (log1 log2 : list (string * list form)) :
  writes_to k log2 = [] ->
  last_commit k (log1 ++ (k, v) :: log2) = Some v.
Proof.
  intros H. unfold last_commit, writes_to in *.
  rewrite filter_app. simpl. rewrite String.eqb_refl, H.
  now rewrite rev_app_distr.
Qed.

Lemma writes_to_without (k k' : string) (log : list (string * list form)) :
  k' <> k ->
  writes_to k' (filter (fun kv => negb (String.eqb (fst kv) k)) log)
  = writes_to k' log.
Proof.
  intros Hk. unfold writes_to. induction log as [|[k0 v0] log IH]; [reflexivity|].
  simpl. destruct (String.eqb_spec k0 k) as [->|Hn]; simpl.
  - apply String.eqb_neq in Hk. rewrite String.eqb_sym in Hk. now rewrite Hk.
  - now rewrite IH.
Qed.

(** ** A comment that runs over a line break *)

Lemma subseq_app (a a' b b' : string) :
  subseq a a' -> subseq b b' -> subseq (a ++ b) (a' ++ b').
Proof.
  intros Ha Hb. induction Ha as [|c t s Ha IH|c t s Ha IH]; simpl.
  - exact Hb.
  - now constructor.
  - now constructor.
Qed.

Lemma subseq_nil_l (s : string) : subseq "" s.
Proof. induction s; constructor; assumption. Qed.

Lemma no_linebreak_split (s : string) :
  no_linebreak s = false ->
  exists a c b, s = a ++ String c b /\ Chr.islinebreak c = true.
Proof.
  unfold no_linebreak. induction s as [|d r IH]; [discriminate|].
  simpl. destruct (Chr.islinebreak d) eqn:E; simpl.
  - intros _. now exists "", d, r.
  - intros H. destruct (IH H) as (a & c & b & -> & Hc).
    now exists (String d a), c, b.
Qed.

(** A slash, a line break and a slash put into a text add a line. *)
Lemma line_count_insert_break (c : ascii) (a b : string) :
  Chr.islinebreak c = true ->
  line_count (a ++ b) < line_count (a ++ String "/" (String c (String "/" b)))
  /\ 2 <= line_count (a ++ String "/" (String c (String "/" b))).
Proof.
  intros Hc.
  assert (Base : line_count (String "/" (String c (String "/" b)))
                 = S (Nat.max 1 (line_count b))).
  { rewrite (line_count_plain "/") by reflexivity.
    rewrite (line_count_break c) by exact Hc.
    replace (after_break c (String "/" b)) with (String "/" b).
    - rewrite (line_count_plain "/") by reflexivity. lia.
    - unfold after_break. now rewrite andb_false_r. }
  remember (String.length a) as n eqn:Hn.
  assert (Hle : String.length a <= n) by lia. clear Hn.
  revert a Hle. induction n as [|n IH]; intros a Hle.
  { destruct a; [|simpl in Hle; lia]. simpl append. rewrite Base. lia. }
  destruct a as [|d a']; [simpl append; rewrite Base; lia|].
  simpl in Hle.
  change (String d a' ++ b) with (String d (a' ++ b)).
  change (String d a' ++ String "/" (String c (String "/" b)))
    with (String d (a' ++ String "/" (String c (String "/" b)))).
  destruct (Chr.islinebreak d) eqn:E.
  - rewrite !(line_count_break _ _ E).
    destruct a' as [|e a''].
    + simpl append.
      replace (after_break d (String "/" (String c (String "/" b))))
        with (String "/" (String c (String "/" b)))
        by (unfold after_break; now rewrite andb_false_r).
      pose proof (line_count_after_break d b). rewrite Base. lia.
    + change (String e a'' ++ b) with (String e (a'' ++ b)).
      change (String e a'' ++ String "/" (String c (String "/" b)))
        with (String e (a'' ++ String "/" (String c (String "/" b)))).
      unfold after_break.
      destruct (Ascii.eqb d Chr.CR && Ascii.eqb e Chr.LF).
      * destruct (IH a'' ltac:(simpl in Hle; lia)). lia.
      * destruct (IH (String e a'') ltac:(lia)) as [H1 H2].
        change (String e a'' ++ b) with (String e (a'' ++ b)) in H1.
        change (String e a'' ++ String "/" (String c (String "/" b)))
          with (String e (a'' ++ String "/" (String c (String "/" b))))
          in H1, H2.
        lia.
  - rewrite !(line_count_plain _ _ E).
    destruct (IH a' ltac:(lia)). lia.
Qed.

(** Taking out a comment that holds a line break takes out a line. *)
Lemma line_count_without_comment (pre body post : string) :
  no_linebreak body = false ->
  line_count (pre ++ post) < line_count (pre ++ "/*" ++ body ++ "*/" ++ post).
Proof.
  intros H. destruct (no_linebreak_split body H) as (x & c & y & -> & Hc).
  destruct (line_count_insert_break c pre post Hc) as [H1 _].
  eapply Nat.lt_le_trans; [exact H1|].
  apply line_count_subseq. apply subseq_app; [apply subseq_refl|].
  change ("/*" ++ (x ++ String c y) ++ "*/" ++ post)
    with (String "/" (String "*" ((x ++ String c y) ++ "*/" ++ post))).
  apply subseq_keep. apply subseq_skip.
  rewrite append_assoc.
  apply (subseq_app "" x); [apply subseq_nil_l|].
  change (String c y ++ "*/" ++ post)
    with (String c (y ++ String "*" (String "/" post))).
  apply subseq_keep.
  apply (subseq_app "" y); [apply subseq_nil_l|].
  apply subseq_skip. apply subseq_refl.
Qed.

(** ** The loop raises nothing *)

Lemma process_line_checked_ok (st : state) (raw_line : string) :
  process_line_checked st raw_line = Ok (process_line st raw_line).
Proof.
  unfold process_line_checked, process_line, key_line.
  destruct (skipped _); [reflexivity|].
  destruct (current_id st) as [id|].
  - now destruct (Str.startswith _ _).
  - destruct (KEY_PATTERN _) as [[key value]|]; [|reflexivity].
    cbn [not_match group bind].
    now destruct (complete _).
Qed.

Lemma run_checked_ok (lines : list string) (st : state) :
  run_checked st lines = Ok (run st lines).
Proof.
  revert st. induction lines as [|l ls IH]; intros st; [reflexivity|].
  cbn [run_checked]. rewrite process_line_checked_ok. cbn [bind].
  now rewrite IH.
Qed.

(** ** Lines that hold nothing *)

Lemma lstrip_by_split (p : ascii -> bool) (s : string) :
  exists ws, all_chars p ws = true /\ s = ws ++ Str.lstrip_by p s.
Proof.
  induction s as [|c r IH]; [now exists ""|].
  simpl. destruct (p c) eqn:E; [|now exists ""].
  destruct IH as (ws & Hw & Hr). exists (String c ws). simpl.
  split; [now rewrite E, Hw | now rewrite <- Hr].
Qed.

Lemma rstrip_by_split (p : ascii -> bool) (s : string) :
  exists ws, all_chars p ws = true /\ s = Str.rstrip_by p s ++ ws.
Proof.
  induction s as [|c r IH]; [now exists ""|].
  destruct IH as (ws & Hw & Hr). rewrite rstrip_by_cons.
  destruct (Str.rstrip_by p r) as [|d r'] eqn:E.
  - destruct (p c) eqn:Ec.
    + exists (String c ws). simpl in *. split; [now rewrite Ec, Hw | now rewrite Hr].
    + exists ws. simpl in *. split; [exact Hw | now rewrite Hr at 1].
  - exists ws. split; [exact Hw|]. simpl in *. now rewrite Hr at 1.
Qed.

Lemma contains_app_r (a b q : string) :
  Str.contains b q = true -> Str.contains (a ++ b) q = true.
Proof.
  intros H. induction a as [|c a IH]; [exact H|].
  change (String c a ++ b) with (String c (a ++ b)).
  cbn [Str.contains]. rewrite IH. apply orb_true_r.
Qed.

Lemma contains_app_l (a b q : string) :
  Str.contains a q = true -> Str.contains (a ++ b) q = true.
Proof.
  induction a as [|c a IH]; intros H.
  - destruct q; [|discriminate]. destruct b; reflexivity.
  - change (String c a ++ b) with (String c (a ++ b)).
    cbn [Str.contains] in *. apply orb_true_iff in H as [H|H].
    + change (String c (a ++ b)) with (String c a ++ b).
      now rewrite (startswith_app_l _ _ b H).
    + rewrite (IH H). apply orb_true_r.
Qed.

(** What a trimmed line holds, the line holds. *)
Lemma contains_strip (s q : string) :
  Str.contains s q = false -> Str.contains (Str.strip s) q = false.
Proof.
  intros H. destruct (Str.contains (Str.strip s) q) eqn:E; [|reflexivity].
  rewrite <- H. symmetry. unfold Str.strip in E.
  destruct (rstrip_by_split Chr.isspace s) as (w & _ & Hs).
  destruct (lstrip_by_split Chr.isspace (Str.rstrip_by Chr.isspace s))
    as (v & _ & Hr).
  rewrite Hs, Hr. apply contains_app_l, contains_app_r, E.
Qed.

(** A text without the two characters a form begins with holds no form. *)
Lemma parse_forms_no_opener (text : string) :
  Str.contains text "['" = false -> parse_forms_from_text text = [].
Proof.
  unfold parse_forms_from_text.
  induction text as [|c r IH]; intros H; [reflexivity|].
  cbn [Str.contains] in H. apply orb_false_iff in H as [H1 H2].
  rewrite (findall_pass c r H1). now apply IH.
Qed.

Lemma key_line_quote (line : string) :
  Str.startswith line "'" = false -> key_line line = None.
Proof.
  intros H. unfold key_line.
  destruct (KEY_PATTERN _) as [[id value]|] eqn:E; [|reflexivity].
  apply KEY_PATTERN_quote, rstrip_by_startswith in E. congruence.
Qed.

(** ** The longest name, in the mapping *)

Lemma flat_map_split {A B : Type} (f : A -> list B) (d : list A)
      (l1 : list B) (r : B) (l2 : list B) :
  flat_map f d = (l1 ++ r :: l2)%list ->
  exists d1 x d2 a b,
    d = (d1 ++ x :: d2)%list /\ f x = (a ++ r :: b)%list
    /\ l1 = (flat_map f d1 ++ a)%list /\ l2 = (b ++ flat_map f d2)%list.
Proof.
  revert l1. induction d as [|x d IH]; intros l1 H.
  - destruct l1; discriminate.
  - cbn [flat_map] in H. apply app_eq_app in H as (l & [[H1 H2]|[H1 H2]]).
    + destruct l as [|y l].
      * rewrite app_nil_r in H1. cbn [app] in H2. symmetry in H2.
        destruct (IH [] H2) as (d1 & x' & d2 & a & b & -> & Hx & Ha & ->).
        exists (x :: d1), x', d2, a, b. repeat split; try assumption.
        cbn [flat_map]. rewrite <- app_assoc, <- Ha, app_nil_r. now symmetry.
      * injection H2 as <- ->.
        exists [], x, d, l1, l. repeat split. exact H1.
    + destruct (IH l H2) as (d1 & x' & d2 & a & b & -> & Hx & -> & ->).
      exists (x :: d1), x', d2, a, b. repeat split; try assumption.
      cbn [flat_map]. now rewrite H1, app_assoc.
Qed.

Lemma map_snd_split (fs : list form) (a : list string) (r : string)
      (b : list string) :
  map snd fs = (a ++ r :: b)%list ->
  exists fs1 c fs2,
    fs = (fs1 ++ (c, r) :: fs2)%list /\ map snd fs1 = a /\ map snd fs2 = b.
Proof.
  revert a. induction fs as [|[c n] fs IH]; intros a H.
  - destruct a; discriminate.
  - destruct a as [|y a]; cbn [map app snd] in H.
    + injection H as -> H. now exists [], c, fs.
    + injection H as -> H.
      destruct (IH a H) as (fs1 & c' & fs2 & -> & <- & <-).
      now exists ((c, y) :: fs1), c', fs2.
Qed.

Lemma first_longest_in_dict (r : string) (d : dict) :
  first_longest r (form_names d) -> first_longest_in r d.
Proof.
  intros (l1 & l2 & H & H1 & H2). unfold form_names in H.
  apply flat_map_split in H as (d1 & [k fs] & d2 & a & b & -> & Hx & -> & ->).
  cbn [snd] in Hx.
  apply map_snd_split in Hx as (fs1 & c & fs2 & -> & <- & <-).
  apply Forall_app in H1 as [H1 H1'], H2 as [H2 H2'].
  exists d1, k, fs1, c, fs2, d2. split; [reflexivity|].
  rewrite Forall_flat_map in H1, H2'. rewrite Forall_map in H1', H2.
  repeat split; try assumption.
  - eapply Forall_impl; [|exact H1]. intros kv. now rewrite Forall_map.
  - eapply Forall_impl; [|exact H2']. intros kv. now rewrite Forall_map.
Qed.

Lemma form_names_nil (d : dict) :
  Forall (fun kv => snd kv = []) d -> form_names d = [].
Proof.
  induction d as [|kv d IH]; intros H; [reflexivity|].
  inversion H as [|? ? H1 H2]; subst. destruct kv as [k fs].
  cbn [snd] in H1. subst fs.
  unfold form_names in *. cbn [flat_map snd map app]. exact (IH H2).
Qed.

Lemma form_names_cons (d : dict) :
  Exists (fun kv => snd kv <> []) d -> form_names d <> [].
Proof.
  induction 1 as [[k [|f fs]] d H|kv d _ IH]; unfold form_names in *;
    cbn [flat_map snd map] in *; try congruence.
  - discriminate.
  - intros E. apply app_eq_nil in E. now destruct E.
Qed.

(** * The claims *)

(** C1.  Outside a block, a line made of a quoted numeric key, a colon and
    a value that starts with an opening bracket, ends with a closing bracket
    and holds as many of the one as of the other (with any white space
    around its parts and any number of commas after the value) is committed
    at once: the key is bound to the forms found in the value from left to
    right, and the parser stays outside a block.  When the value is the text
    of a list of forms, the forms found are those of the list, in their
    order.  The line ['5': [['a', 'Alpha'], ['b', 'Beta']],] of the
    specification is the instance [single_line_entry_example]. *)
Theorem single_line_entry_committed
        (st : state) (lead id ws1 ws2 rest ws3 trail : string) (n : nat) :
  current_id st = None ->
  all_chars Chr.isspace (lead ++ ws1 ++ ws2 ++ ws3 ++ trail) = true ->
  id <> "" -> all_chars Chr.isdigit id = true ->
  Str.startswith rest "[" = true ->
  Str.endswith rest "]" = true ->
  Str.count "[" rest = Str.count "]" rest ->
  no_linebreak (rest ++ ws3) = true ->
  process_line st (entry_line lead id ws1 ws2 rest ws3 n trail) =
    {| entries := dict_set id (Re.findall FORM_PATTERN rest) (entries st);
       current_id := None;
       current_forms := current_forms st |}
  /\ dict_get id
       (entries (process_line st (entry_line lead id ws1 ws2 rest ws3 n trail)))
     = Some (Re.findall FORM_PATTERN rest)
  /\ current_id (process_line st (entry_line lead id ws1 ws2 rest ws3 n trail))
     = None
  /\ (forall fs,
        rest = value_text fs -> Forall form_quote_free fs ->
        Re.findall FORM_PATTERN rest = fs).
Proof.
  intros Hc Hw Hid Hd H1 H2 H3 Hl.
  pose proof (key_line_entry_line lead id ws1 ws2 rest ws3 trail n
                Hw Hid Hd H1 H2 Hl) as Hk.
  assert (Hr : complete rest = true).
  { unfold complete. now rewrite H1, H2, H3, Nat.eqb_refl. }
  rewrite (process_line_complete st _ id rest Hc
             (key_line_not_skipped _ _ _ Hk) Hk Hr).
  repeat split.
  - apply dict_get_set_same.
  - intros fs -> Hq. now apply findall_value_text.
Qed.

Lemma single_line_entry_example :
  process_line initial "'5': [['a', 'Alpha'], ['b', 'Beta']]," =
    {| entries := [("5", [("a", "Alpha"); ("b", "Beta")])];
       current_id := None;
       current_forms := [] |}
  /\ parse_typescript_map "'5': [['a', 'Alpha'], ['b', 'Beta']]," =
       [("5", [("a", "Alpha"); ("b", "Beta")])].
Proof.
  split; [|reflexivity].
  exact (proj1 (single_line_entry_committed initial
                  "" "5" "" " " (value_text [("a", "Alpha"); ("b", "Beta")])
                  "" "" 1
                  eq_refl eq_refl ltac:(discriminate) eq_refl
                  eq_refl eq_refl eq_refl eq_refl)).
Defined.

(** C2.  When the pass over the lines ends inside a block, the forms
    gathered so far are committed under the identifier of the block: the
    resulting mapping binds that identifier to them. *)
Theorem unterminated_block_committed (raw id : string) :
  current_id (run initial (Str.splitlines (strip_comments raw))) = Some id ->
  dict_get id (parse_typescript_map raw) =
    Some (current_forms (run initial (Str.splitlines (strip_comments raw)))).
Proof.
  intros H. unfold parse_typescript_map, parse_lines, finish.
  rewrite H. apply dict_get_set_same.
Qed.

Lemma unterminated_block_example :
  dict_get "7" (parse_typescript_map
                  ("'7': [" ++ nl ++ "  ['x', 'Ex']," ++ nl ++ "  ['y', 'Why'],"))
  = Some [("x", "Ex"); ("y", "Why")].
Proof.
  exact (unterminated_block_committed
           ("'7': [" ++ nl ++ "  ['x', 'Ex']," ++ nl ++ "  ['y', 'Why'],")
           "7" eq_refl).
Defined.

(** C3.  The resulting mapping binds every identifier to the value of the
    last write made to it, in the order of the text, whichever of the three
    places wrote it: when the writes of the run are [log1], then a write of
    [v] to [k], then writes [log2] none of which is to [k], the mapping
    binds [k] to [v].  The value of another identifier [k'] is the same with
    the writes to [k] left out, so a repeated identifier changes nothing for
    the others; and no identifier occurs twice in the mapping. *)
Theorem last_write_wins (raw k : string) :
  dict_get k (parse_typescript_map raw) =
    last_commit k (commits initial (Str.splitlines (strip_comments raw)))
  /\ (forall log1 v log2,
        commits initial (Str.splitlines (strip_comments raw))
        = (log1 ++ (k, v) :: log2)%list ->
        writes_to k log2 = [] ->
        dict_get k (parse_typescript_map raw) = Some v)
  /\ (forall k',
        k' <> k ->
        dict_get k' (parse_typescript_map raw) =
          last_commit k'
            (filter (fun kv => negb (String.eqb (fst kv) k))
                    (commits initial (Str.splitlines (strip_comments raw)))))
  /\ NoDup (map fst (parse_typescript_map raw)).
Proof.
  assert (G : forall x, dict_get x (parse_typescript_map raw) =
                last_commit x
                  (commits initial (Str.splitlines (strip_comments raw)))).
  { intros x. unfold parse_typescript_map, parse_lines.
    rewrite finish_run_commits, dict_get_fold_commits. simpl.
    now destruct (last_commit _ _). }
  split; [apply G|]. split; [|split].
  - intros log1 v log2 E H. rewrite G, E. now apply last_commit_last.
  - intros k' Hk. rewrite G. unfold last_commit.
    now rewrite writes_to_without.
  - unfold parse_typescript_map, parse_lines. rewrite finish_run_commits.
    apply fold_commits_NoDup. constructor.
Qed.

Lemma last_write_wins_example :
  commits initial (Str.splitlines (strip_comments twice_text))
  = [("3", [("a", "Old")]); ("4", [("b", "Bee")]); ("3", [("c", "New")])]
  /\ parse_typescript_map twice_text
     = [("3", [("c", "New")]); ("4", [("b", "Bee")])]
  /\ dict_get "3" (parse_typescript_map twice_text) = Some [("c", "New")].
Proof.
  split; [reflexivity|]. split; [reflexivity|].
  exact (proj1 (proj2 (last_write_wins twice_text "3"))
               [("3", [("a", "Old")]); ("4", [("b", "Bee")])]
               [("c", "New")] [] eq_refl eq_refl).
Defined.

(** C4, as the specification states it, fails: a comment that runs over a
    line break takes the break away with it, and the text has fewer lines
    afterwards. *)
Lemma strip_comments_line_count_differs :
  strip_comments ("a/*" ++ nl ++ "*/b") = "ab"
  /\ line_count ("a/*" ++ nl ++ "*/b") = 2
  /\ line_count (strip_comments ("a/*" ++ nl ++ "*/b")) = 1
  /\ line_count (strip_comments ("a/*" ++ nl ++ "*/b"))
     <> line_count ("a/*" ++ nl ++ "*/b").
Proof. repeat split. discriminate. Qed.

(** C4, amended.  The stripper removes the comments whole, each from its
    opener to the first terminator that begins after it, with the line
    breaks inside it; every character outside the comments is kept, in
    order, line breaks included.  A text without an opener is returned as it
    is.  The stripped text never has more lines than the input, and it has
    fewer when a comment that is removed runs over a line break. *)
Theorem strip_comments_removes_spans (raw : string) :
  subseq (strip_comments raw) raw
  /\ line_count (strip_comments raw) <= line_count raw
  /\ (Str.contains raw "/*" = false -> strip_comments raw = raw)
  /\ (forall pre body post,
        raw = pre ++ "/*" ++ body ++ "*/" ++ post ->
        Str.contains pre "/*" = false ->
        find_close body = None ->
        strip_comments raw = pre ++ strip_comments post)
  /\ (forall pre body post,
        raw = pre ++ "/*" ++ body ++ "*/" ++ post ->
        closed pre ->
        find_close body = None ->
        no_linebreak body = false ->
        line_count (strip_comments raw) < line_count raw).
Proof.
  split; [apply strip_comments_subseq|].
  split; [apply strip_comments_line_count|].
  split; [apply strip_comments_no_open|].
  split.
  - intros pre body post -> Hp Hb.
    rewrite strip_comments_no_open_app; [| exact Hp |].
    + now rewrite (strip_comments_head body post Hb).
    + reflexivity.
  - intros pre body post -> Hp Hb Hl.
    rewrite (strip_comments_app_closed pre _ Hp) by reflexivity.
    rewrite (strip_comments_head body post Hb).
    eapply Nat.le_lt_trans; [|apply (line_count_without_comment _ _ _ Hl)].
    apply line_count_subseq.
    apply subseq_app; apply strip_comments_subseq.
Qed.

Lemma strip_comments_removes_spans_example :
  strip_comments ("x = 1; /* one" ++ nl ++ "two */ y = 2; /* three */ z")
  = "x = 1; " ++ strip_comments (" y = 2; /* three */ z")
  /\ line_count
       (strip_comments ("x = 1; /* one" ++ nl ++ "two */ y = 2; /* three */ z"))
     < line_count ("x = 1; /* one" ++ nl ++ "two */ y = 2; /* three */ z").
Proof.
  split.
  - apply (proj1 (proj2 (proj2 (proj2 (strip_comments_removes_spans _))))
             "x = 1; " (" one" ++ nl ++ "two ") " y = 2; /* three */ z");
      reflexivity.
  - apply (proj2 (proj2 (proj2 (proj2 (strip_comments_removes_spans _))))
             "x = 1; " (" one" ++ nl ++ "two ") " y = 2; /* three */ z");
      reflexivity.
Defined.

(** C5.  A comment is removed before the lines are read, up to the first
    terminator that begins after its opener and no further: the mapping is
    computed from the text before the comment and the text after it, and
    nothing of what stands inside the comment, a key line for one, reaches
    the parser.  The opener is one the stripper meets outside any earlier
    comment ([closed pre]). *)
Theorem commented_lines_ignored (pre body post : string) :
  closed pre ->
  find_close body = None ->
  strip_comments (pre ++ "/*" ++ body ++ "*/" ++ post)
    = strip_comments pre ++ strip_comments post
  /\ parse_typescript_map (pre ++ "/*" ++ body ++ "*/" ++ post)
     = parse_lines (strip_comments pre ++ strip_comments post)
  /\ parse_typescript_map (pre ++ "/*" ++ body ++ "*/" ++ post)
     = parse_typescript_map (pre ++ "/**/" ++ post).
Proof.
  intros Hp Hb.
  assert (E : forall b, find_close b = None ->
                strip_comments (pre ++ "/*" ++ b ++ "*/" ++ post)
                = strip_comments pre ++ strip_comments post).
  { intros b Hb'. rewrite (strip_comments_app_closed pre _ Hp) by reflexivity.
    now rewrite (strip_comments_head b post Hb'). }
  split; [now apply E|].
  unfold parse_typescript_map. rewrite (E body Hb). split; [reflexivity|].
  change (pre ++ "/**/" ++ post) with (pre ++ "/*" ++ "" ++ "*/" ++ post).
  now rewrite (E "" eq_refl).
Qed.

Lemma commented_lines_ignored_example :
  parse_typescript_map
    ("'1': [['a', 'Ay']]," ++ nl ++
     "/*" ++ (" old:" ++ nl ++ "'9': [['z', 'Zed']]," ++ nl) ++ "*/" ++
     (nl ++ "'5': [['b', 'Bee']],"))
  = [("1", [("a", "Ay")]); ("5", [("b", "Bee")])].
Proof.
  rewrite <- append_assoc.
  rewrite (proj1 (proj2 (commented_lines_ignored
                           ("'1': [['a', 'Ay']]," ++ nl)
                           (" old:" ++ nl ++ "'9': [['z', 'Zed']]," ++ nl)
                           (nl ++ "'5': [['b', 'Bee']],")
                           eq_refl eq_refl))).
  reflexivity.
Defined.

(** C6, as the specification states it, fails: on a line that ends in three
    commas the value that reaches the completeness test ends in no comma,
    and the entry is committed on the spot, where a single comma taken off
    at each of the two steps would leave one behind. *)
Lemma single_trailing_comma_refuted :
  key_line "'5': [['a', 'b']],,," = Some ("5", "[['a', 'b']]")
  /\ Str.endswith "[['a', 'b']]" "," = false
  /\ key_line_single_comma "'5': [['a', 'b']],,," = Some ("5", "[['a', 'b']],")
  /\ key_line "'5': [['a', 'b']],,," <> key_line_single_comma "'5': [['a', 'b']],,,"
  /\ process_line initial "'5': [['a', 'b']],,," =
       {| entries := [("5", [("a", "b")])];
          current_id := None;
          current_forms := [] |}.
Proof. repeat split. discriminate. Qed.

(** C6, amended.  In the outside-block state the pattern is matched against
    the trimmed line with all its trailing commas taken off, however many
    there are, and on a match all the trailing commas of the value are taken
    off, and then the white space around it, before the completeness
    test.  So a trimmed line followed by any number of commas is processed
    as the line itself. *)
Theorem trailing_commas_all_stripped (line : string) (n : nat) :
  key_line (line ++ Str.repeat "," n) = key_line line
  /\ Str.endswith (Str.rstrip_commas (line ++ Str.repeat "," n)) "," = false
  /\ (forall key rest,
        key_line line = Some (key, rest) ->
        exists value,
          KEY_PATTERN (Str.rstrip_commas line) = Some (key, value)
          /\ Str.endswith (Str.rstrip_commas value) "," = false
          /\ rest = Str.strip (Str.rstrip_commas value))
  /\ (forall st,
        current_id st = None -> Str.strip line = line ->
        process_line st (line ++ Str.repeat "," n) = process_line st line).
Proof.
  split; [|split; [|split]].
  - unfold key_line. now rewrite rstrip_commas_repeat.
  - apply rstrip_by_not_ends.
  - intros key rest H. unfold key_line in H.
    destruct (KEY_PATTERN (Str.rstrip_commas line)) as [[k v]|]; [|discriminate].
    injection H as <- <-. exists v. repeat split. apply rstrip_by_not_ends.
  - intros st Hc Hl. now apply process_line_commas_after.
Qed.

Lemma trailing_commas_all_stripped_example :
  key_line ("'5': [['a', 'b']]" ++ Str.repeat "," 3)
  = Some ("5", "[['a', 'b']]").
Proof.
  rewrite (proj1 (trailing_commas_all_stripped "'5': [['a', 'b']]" 3)).
  reflexivity.
Defined.

(** C7.  The parser raises nothing: with the one call of the loop that can
    fail written as it fails, [match.group] on a line the key pattern does
    not match, the parser returns a mapping for every text, the one of
    [parse_typescript_map], since the loop leaves such a line before that
    call.  A line it does not recognize leaves the state of the loop as it
    was: outside a block a line that is no key line, and so every line that
    does not begin with a quote; inside a block a line that does not begin
    with a closing bracket and holds no form, and so every such line without
    an opening bracket followed by a quote.  A text none of whose lines is a
    key line yields the empty mapping. *)
Theorem parser_total_and_lenient :
  (forall raw,
      parse_typescript_map_checked raw = Ok (parse_typescript_map raw))
  /\ (forall st raw_line,
        unrecognized st raw_line = true ->
        process_line_checked st raw_line = Ok st)
  /\ (forall st raw_line,
        current_id st = None ->
        Str.startswith (Str.strip raw_line) "'" = false ->
        process_line_checked st raw_line = Ok st)
  /\ (forall st raw_line,
        current_id st <> None ->
        Str.startswith (Str.strip raw_line) "]" = false ->
        Str.contains raw_line "['" = false ->
        process_line_checked st raw_line = Ok st)
  /\ (forall raw,
        (forall l, In l (Str.splitlines (strip_comments raw)) ->
                   key_line (Str.strip l) = None) ->
        parse_typescript_map_checked raw = Ok []).
Proof.
  assert (U : forall st raw_line,
             unrecognized st raw_line = true -> process_line st raw_line = st).
  { intros st raw_line H. unfold unrecognized in H.
    destruct (skipped (Str.strip raw_line)) eqn:Es.
    - now apply process_line_skipped.
    - simpl in H. destruct (current_id st) as [id|] eqn:Ec.
      + apply andb_true_iff in H as [Hb Hf]. apply negb_true_iff in Hb.
        apply (process_line_no_form st raw_line id Ec Hb).
        now destruct (parse_forms_from_text _).
      + apply process_line_no_key; [exact Ec|].
        now destruct (key_line _). }
  assert (T : forall raw,
             parse_typescript_map_checked raw = Ok (parse_typescript_map raw)).
  { intros raw. unfold parse_typescript_map_checked.
    now rewrite run_checked_ok. }
  split; [exact T|].
  split; [intros st raw_line H; rewrite process_line_checked_ok;
          now rewrite (U st raw_line H)|].
  split; [|split].
  - intros st raw_line Hc Hq. rewrite process_line_checked_ok.
    now rewrite (process_line_no_key st raw_line Hc (key_line_quote _ Hq)).
  - intros st raw_line Hc Hb Hf. rewrite process_line_checked_ok.
    destruct (current_id st) as [id|] eqn:Ec; [|congruence].
    now rewrite (process_line_no_form st raw_line id Ec Hb
                   (parse_forms_no_opener _ (contains_strip _ _ Hf))).
  - intros raw H. rewrite T. f_equal.
    unfold parse_typescript_map, parse_lines.
    assert (R : run initial (Str.splitlines (strip_comments raw)) = initial).
    { unfold run.
      induction (Str.splitlines (strip_comments raw)) as [|l ls IH];
        [reflexivity|].
      simpl. rewrite process_line_no_key;
        [apply IH; intros; apply H; now right | reflexivity
        | apply H; now left]. }
    now rewrite R.
Qed.

Lemma parser_total_and_lenient_example :
  process_line_checked initial "const x = [['a', 'b']];" = Ok initial
  /\ process_line_checked (State [] (Some "7") [("x", "Ex")])
                          "  [ 'y', 'Why' ]], [["
     = Ok (State [] (Some "7") [("x", "Ex")])
  /\ parse_typescript_map_checked
       ("import x;" ++ nl ++ "]]] [[ '" ++ nl ++ "12': [['a', 'b']],")
     = Ok [].
Proof.
  split; [|split].
  - exact (proj1 (proj2 (proj2 parser_total_and_lenient)) initial
                 "const x = [['a', 'b']];" eq_refl eq_refl).
  - apply (proj1 (proj2 (proj2 (proj2 parser_total_and_lenient))));
      [discriminate | vm_compute; reflexivity | vm_compute; reflexivity].
  - apply (proj2 (proj2 (proj2 (proj2 parser_total_and_lenient)))).
    intros l H. vm_compute in H.
    destruct H as [<-|[<-|[<-|[]]]]; vm_compute; reflexivity.
Defined.

(** C8.  The longest name of the summary is the first, in the order of the
    entries and of the forms of each entry, of the names of greatest
    length: it is the name of a form of the mapping, every name that comes
    before that form is shorter, and no name that comes after it is longer,
    so a later name of the same length does not replace it.  When no entry
    of the mapping holds a form, and so when the mapping is empty, it is the
    empty string. *)
Theorem longest_name_first_of_longest (d : dict) :
  (Forall (fun kv => snd kv = []) d -> snd (summarize d) = "")
  /\ (Exists (fun kv => snd kv <> []) d ->
      first_longest_in (snd (summarize d)) d).
Proof.
  unfold summarize, longest_name. cbn [snd]. split; intros H.
  - now rewrite (form_names_nil d H).
  - apply first_longest_in_dict. apply form_names_cons in H.
    destruct (form_names d) as [|x xs]; [congruence|].
    apply max_by_len_first.
Qed.

Lemma longest_name_first_of_longest_example :
  first_longest_in "Ivysaur"
    [("1", [("a", "Bulb"); ("b", "Ivysaur")]);
     ("2", [("c", "Venusau"); ("d", "Char")])]
  /\ snd (summarize [("1", []); ("2", [])]) = "".
Proof.
  split.
  - apply (proj2 (longest_name_first_of_longest
                    [("1", [("a", "Bulb"); ("b", "Ivysaur")]);
                     ("2", [("c", "Venusau"); ("d", "Char")])])).
    apply Exists_cons_hd. discriminate.
  - apply (proj1 (longest_name_first_of_longest [("1", []); ("2", [])])).
    repeat constructor.
Defined.

Lemma longest_name_example :
  longest_name [("1", [("a", "Bulb"); ("b", "Ivysaur")]);
                ("2", [("c", "Venusau"); ("d", "Char")])] = "Ivysaur"
  /\ longest_name [] = "".
Proof. split; reflexivity. Qed.




(** C10.  In every form of every entry of the resulting mapping, neither
    the code nor the name holds a single quote. *)
Theorem forms_quote_free (raw key code name : string) (forms : list form) :
  In (key, forms) (parse_typescript_map raw) ->
  In (code, name) forms ->
  quote_free code /\ quote_free name.
Proof.
  intros Hk Hf.
  pose proof (parse_lines_quote_free (strip_comments raw)) as H.
  unfold dict_quote_free in H. rewrite Forall_forall in H.
  specialize (H _ Hk). simpl in H. rewrite Forall_forall in H.
  exact (H _ Hf).
Qed.

Lemma forms_quote_free_example :
  parse_typescript_map "'1': [['a'b', 'c'], ['d', 'e']]," = [("1", [("d", "e")])]
  /\ quote_free "d" /\ quote_free "e".
Proof.
  split; [reflexivity|].
  apply (forms_quote_free "'1': [['a'b', 'c'], ['d', 'e']]," "1" "d" "e"
           [("d", "e")]).
  - simpl. now left.
  - simpl. now left.
Defined.

(** * Lemmas for the further properties *)

(** ** Identifiers are digit strings *)

Lemma span_all_chars (p : ascii -> bool) (s x y : string) :
  Str.span p s = (x, y) -> all_chars p x = true.
Proof.
  revert x y; induction s as [|c r IH]; intros x y H; simpl in H.
  - now injection H as <- <-.
  - destruct (p c) eqn:E.
    + destruct (Str.span p r) as [x' y'] eqn:Er.
      injection H as <- <-. simpl. now rewrite E, (IH _ _ eq_refl).
    + now injection H as <- <-.
Qed.

Lemma KEY_PATTERN_digits (s id value : string) :
  KEY_PATTERN s = Some (id, value) -> digit_string id.
Proof.
  unfold KEY_PATTERN. destruct (Str.startswith s "'"); [|discriminate].
  destruct (Str.span Chr.isdigit (Str.drop 1 s)) as [d r1] eqn:E.
  destruct d as [|c d']; [discriminate|].
  destruct (Str.startswith r1 "'"); [|discriminate].
  destruct (Str.startswith _ ":"); [|discriminate].
  destruct (key_spaces_value _); [|discriminate].
  intros H; injection H as <- _. split; [discriminate|].
  exact (span_all_chars _ _ _ _ E).
Qed.

Lemma key_line_digits (line key rest : string) :
  key_line line = Some (key, rest) -> digit_string key.
Proof.
  unfold key_line. destruct (KEY_PATTERN _) as [[k v]|] eqn:E; [|discriminate].
  intros H; injection H as <- _. exact (KEY_PATTERN_digits _ _ _ E).
Qed.

Lemma dict_set_keys_digits (k : string) (v : list form) (d : dict) :
  digit_string k -> keys_digits d -> keys_digits (dict_set k v d).
Proof.
  intros Hk Hd. induction Hd as [|[k' v'] d Hkv Hd IH]; simpl.
  - constructor; [exact Hk | constructor].
  - destruct (String.eqb k' k); constructor; auto.
Qed.

Lemma process_line_keys_digits (st : state) (raw_line : string) :
  state_keys_digits st -> state_keys_digits (process_line st raw_line).
Proof.
  intros [He Hc]. unfold process_line.
  destruct (skipped _); [now split|].
  destruct (current_id st) as [id|] eqn:Ec.
  - destruct (Str.startswith _ "]"); split; simpl; auto.
    now apply dict_set_keys_digits.
  - destruct (key_line _) as [[key rest]|] eqn:Ek; [|split; [exact He | now rewrite Ec]].
    pose proof (key_line_digits _ _ _ Ek) as Hk.
    destruct (complete rest); split; simpl; auto.
    now apply dict_set_keys_digits.
Qed.

Lemma run_keys_digits (lines : list string) (st : state) :
  state_keys_digits st -> state_keys_digits (run st lines).
Proof.
  revert st; induction lines as [|l lines IH]; intros st H; [exact H|].
  apply IH. now apply process_line_keys_digits.
Qed.

Lemma parse_lines_keys_digits (text : string) : keys_digits (parse_lines text).
Proof.
  unfold parse_lines, finish.
  destruct (run_keys_digits (Str.splitlines text) initial) as [He Hc].
  { split; [constructor | exact I]. }
  destruct (current_id _); [now apply dict_set_keys_digits | exact He].
Qed.

(** ** The order of the entries *)

Lemma dict_set_order (k : string) (v : list form) (d : dict) :
  map fst (dict_set k v d) =
    (map fst d ++ filter (fun x => negb (existsb (String.eqb x) (map fst d))) [k])%list.
Proof.
  induction d as [|[k' v'] d IH]; [reflexivity|].
  cbn [dict_set]. destruct (String.eqb k' k) eqn:E.
  - apply String.eqb_eq in E. subst k'. simpl.
    rewrite String.eqb_refl. simpl. now rewrite app_nil_r.
  - cbn [map fst]. rewrite IH. simpl.
    rewrite (String.eqb_sym k k'), E. reflexivity.
Qed.

Lemma filter_filter_and {A : Type} (f g : A -> bool) (l : list A) :
  filter f (filter g l) = filter (fun x => f x && g x) l.
Proof.
  induction l as [|x l IH]; [reflexivity|]. simpl.
  destruct (g x) eqn:Eg; simpl; rewrite ?andb_true_r, ?andb_false_r;
    [destruct (f x) |]; now rewrite IH.
Qed.

Lemma fold_commits_order (log : list (string * list form)) (d : dict) :
  map fst (fold_left apply_commit log d) =
    (map fst d ++
     filter (fun x => negb (existsb (String.eqb x) (map fst d)))
            (first_occurrences (map fst log)))%list.
Proof.
  revert d; induction log as [|[k v] log IH]; intros d.
  - simpl. now rewrite app_nil_r.
  - cbn [fold_left map fst first_occurrences]. rewrite IH.
    assert (K : map fst (apply_commit d (k, v)) =
                (map fst d ++
                 (if existsb (String.eqb k) (map fst d) then [] else [k]))%list).
    { unfold apply_commit. cbn [fst snd]. rewrite dict_set_order. simpl.
      now destruct (existsb (String.eqb k) (map fst d)). }
    rewrite K at 1. rewrite <- app_assoc. f_equal.
    cbn [filter]. rewrite filter_filter_and.
    assert (F : forall x,
               negb (existsb (String.eqb x) (map fst (apply_commit d (k, v))))
               = negb (existsb (String.eqb x) (map fst d))
                 && negb (String.eqb x k
                          && negb (existsb (String.eqb k) (map fst d)))).
    { intros x. rewrite K, existsb_app, negb_orb. f_equal.
      destruct (existsb (String.eqb k) (map fst d)); simpl;
        [now rewrite andb_false_r | now rewrite orb_false_r, andb_true_r]. }
    destruct (existsb (String.eqb k) (map fst d)) eqn:Ek; cbn [negb app].
    + apply filter_ext. intros x. rewrite F.
      rewrite andb_false_r. simpl.
      destruct (String.eqb_spec x k) as [->|]; [now rewrite Ek | simpl].
      now rewrite !andb_true_r.
    + f_equal. apply filter_ext. intros x. rewrite F.
      now rewrite andb_true_r.
Qed.

Lemma occurs_refl (s : string) : occurs s s.
Proof. exists "", "". now rewrite append_nil_r. Qed.

Lemma occurs_trans (a b c : string) : occurs a b -> occurs b c -> occurs a c.
Proof.
  intros (x & y & ->) (u & v & ->). exists (u ++ x), (y ++ v).
  now rewrite !append_assoc.
Qed.

Lemma occurs_cons (t s : string) (c : ascii) :
  occurs t s -> occurs t (String c s).
Proof. intros (a & b & ->). now exists (String c a), b. Qed.

Lemma occurs_suffix (t a : string) : occurs t (a ++ t).
Proof. exists a, "". now rewrite append_nil_r. Qed.

Lemma occurs_prefix (t b : string) : occurs t (t ++ b).
Proof. now exists "", b. Qed.

Lemma span_split (p : ascii -> bool) (s x y : string) :
  Str.span p s = (x, y) -> s = x ++ y.
Proof.
  revert x y; induction s as [|c r IH]; intros x y H; simpl in H.
  - now injection H as <- <-.
  - destruct (p c).
    + destruct (Str.span p r) as [x' y'] eqn:Er.
      injection H as <- <-. simpl. now rewrite (IH _ _ eq_refl).
    + now injection H as <- <-.
Qed.

Lemma drop_1_split (s p : string) :
  Str.startswith s p = true -> s = p ++ Str.drop (String.length p) s.
Proof. apply startswith_split. Qed.

(** A match of the form pattern is the text of its form, at the head of the
    text it is tried on. *)
Lemma FORM_PATTERN_text (s : string) (f : form) (n : nat) :
  FORM_PATTERN s = Some (f, n) ->
  exists t rest, tuple_of f t /\ s = t ++ rest.
Proof.
  unfold FORM_PATTERN.
  destruct (Str.startswith s "['") eqn:E0; [|discriminate].
  apply startswith_split in E0. cbn [String.length] in E0.
  destruct (Str.span (Chr.except "'") (Str.drop 2 s)) as [code r1] eqn:E1.
  apply span_split in E1.
  destruct (Str.startswith r1 "'") eqn:E2; [|discriminate].
  apply startswith_split in E2. cbn [String.length] in E2.
  destruct (lstrip_by_split Chr.isspace (Str.drop 1 r1)) as (ws1 & H1 & L1).
  set (r2 := Str.lstrip_by Chr.isspace (Str.drop 1 r1)) in *.
  destruct (Str.startswith r2 ",") eqn:E3; [|discriminate].
  apply startswith_split in E3. cbn [String.length] in E3.
  destruct (lstrip_by_split Chr.isspace (Str.drop 1 r2)) as (ws2 & H2 & L2).
  set (r3 := Str.lstrip_by Chr.isspace (Str.drop 1 r2)) in *.
  destruct (Str.startswith r3 "'") eqn:E4; [|discriminate].
  apply startswith_split in E4. cbn [String.length] in E4.
  destruct (Str.span (Chr.except "'") (Str.drop 1 r3)) as [name r4] eqn:E5.
  apply span_split in E5.
  destruct (Str.startswith r4 "'") eqn:E6; [|discriminate].
  apply startswith_split in E6. cbn [String.length] in E6.
  destruct (lstrip_by_split Chr.isspace (Str.drop 1 r4)) as (ws3 & H3 & L3).
  set (r5 := Str.lstrip_by Chr.isspace (Str.drop 1 r4)) in *.
  destruct (Str.startswith r5 "]") eqn:E7; [|discriminate].
  apply startswith_split in E7. cbn [String.length] in E7.
  intros H; injection H as <- _.
  exists ("['" ++ code ++ "'" ++ ws1 ++ "," ++ ws2 ++ "'" ++ name ++ "'"
          ++ ws3 ++ "]"), (Str.drop 1 r5).
  split.
  - exists ws1, ws2, ws3. split; [|reflexivity].
    now rewrite !all_chars_app, H1, H2, H3.
  - rewrite E0 at 1. rewrite E1, E2, L1, E3, L2, E4, E5, E6, L3, E7.
    now app_norm.
Qed.

Section ScanOccurs.
Context {A : Type}.
Variable m : string -> option (A * nat).

Lemma scan_from_match_at (s : string) (k : nat) (a : A) :
  In a (Re.matches (Re.scan_from m k s)) ->
  exists pre suf n, s = pre ++ suf /\ m suf = Some (a, n).
Proof.
  revert k; induction s as [|c r IH]; intros k H; [contradiction|].
  simpl in H. destruct k as [|k].
  - destruct (m (String c r)) as [[a' n]|] eqn:E; simpl in H.
    + destruct H as [->|H].
      * now exists "", (String c r), n.
      * destruct (IH _ H) as (pre & suf & n' & -> & Hm).
        now exists (String c pre), suf, n'.
    + destruct (IH _ H) as (pre & suf & n' & -> & Hm).
      now exists (String c pre), suf, n'.
  - destruct (IH _ H) as (pre & suf & n' & -> & Hm).
    now exists (String c pre), suf, n'.
Qed.
End ScanOccurs.

Lemma parse_forms_occur (text : string) (f : form) :
  In f (parse_forms_from_text text) ->
  exists t, tuple_of f t /\ occurs t text.
Proof.
  intros H. apply scan_from_match_at in H as (pre & suf & n & -> & Hm).
  apply FORM_PATTERN_text in Hm as (t & rest & Ht & ->).
  exists t. split; [exact Ht | now exists pre, rest].
Qed.

(** ** Lines, trimmed lines and values stand in the text *)

Lemma occurs_nil (s : string) : occurs "" s.
Proof. now exists "", s. Qed.

Lemma splitlines_nil (s : string) : Str.splitlines s = [] -> s = "".
Proof.
  destruct s as [|c r]; [reflexivity|]. intros H.
  now destruct (splitlines_nonempty c r).
Qed.

Lemma splitlines_head_prefix (s l : string) (ls : list string) :
  Str.splitlines s = l :: ls -> exists b, s = l ++ b.
Proof.
  revert l ls; induction s as [|c r IH]; intros l ls H; [discriminate|].
  destruct (Chr.islinebreak c) eqn:E.
  - rewrite (splitlines_break _ _ E) in H. injection H as <- _.
    now exists (String c r).
  - rewrite (splitlines_plain _ _ E) in H.
    destruct (Str.splitlines r) as [|l0 ls0] eqn:Er.
    + injection H as <- _. apply splitlines_nil in Er. subst r. now exists "".
    + injection H as <- _. destruct (IH _ _ eq_refl) as [b ->].
      now exists b.
Qed.

Lemma after_break_occurs (c : ascii) (r : string) : occurs (after_break c r) r.
Proof.
  unfold after_break. destruct r as [|d r']; [apply occurs_refl|].
  destruct (Ascii.eqb c Chr.CR && Ascii.eqb d Chr.LF);
    [apply occurs_cons |]; apply occurs_refl.
Qed.

Lemma length_after_break (c : ascii) (r : string) :
  String.length (after_break c r) <= String.length r.
Proof.
  unfold after_break. destruct r as [|d r']; [lia|].
  destruct (Ascii.eqb c Chr.CR && Ascii.eqb d Chr.LF); simpl; lia.
Qed.

Lemma splitlines_occurs (s l : string) :
  In l (Str.splitlines s) -> occurs l s.
Proof.
  remember (String.length s) as n eqn:Hn.
  assert (Hle : String.length s <= n) by lia. clear Hn.
  revert s l Hle. induction n as [|n IH]; intros s l Hle H.
  { destruct s; [contradiction | simpl in Hle; lia]. }
  destruct s as [|c r]; [contradiction|]. simpl in Hle.
  destruct (Chr.islinebreak c) eqn:E.
  - rewrite (splitlines_break _ _ E) in H. destruct H as [<-|H].
    + apply occurs_nil.
    + apply occurs_cons. eapply occurs_trans; [|apply after_break_occurs].
      apply IH; [|exact H]. pose proof (length_after_break c r). lia.
  - rewrite (splitlines_plain _ _ E) in H.
    destruct (Str.splitlines r) as [|l0 ls0] eqn:Er.
    + destruct H as [<-|[]]. apply splitlines_nil in Er. subst r.
      apply occurs_refl.
    + destruct H as [<-|H].
      * destruct (splitlines_head_prefix _ _ _ Er) as [b ->].
        change (String c (l0 ++ b)) with (String c l0 ++ b).
        apply occurs_prefix.
      * apply occurs_cons. apply IH; [lia|]. rewrite Er. now right.
Qed.

Lemma rstrip_by_occurs (p : ascii -> bool) (s : string) :
  occurs (Str.rstrip_by p s) s.
Proof.
  destruct (rstrip_by_split p s) as (ws & _ & H). rewrite H at 2.
  apply occurs_prefix.
Qed.

Lemma lstrip_by_occurs (p : ascii -> bool) (s : string) :
  occurs (Str.lstrip_by p s) s.
Proof.
  destruct (lstrip_by_split p s) as (ws & _ & H). rewrite H at 2.
  apply occurs_suffix.
Qed.

Lemma strip_occurs (s : string) : occurs (Str.strip s) s.
Proof.
  unfold Str.strip. eapply occurs_trans;
    [apply lstrip_by_occurs | apply rstrip_by_occurs].
Qed.

Lemma key_value_occurs (s v : string) : key_value s = Some v -> occurs v s.
Proof.
  unfold key_value.
  destruct (Str.span (Chr.except Chr.LF) s) as [x y] eqn:E.
  apply span_split in E. destruct x; [discriminate|].
  destruct (_ || _); [|discriminate].
  intros H; injection H as <-. rewrite E. apply occurs_prefix.
Qed.

Lemma key_spaces_value_occurs (s v : string) :
  key_spaces_value s = Some v -> occurs v s.
Proof.
  induction s as [|c r IH]; [discriminate|]. cbn [key_spaces_value].
  destruct (Chr.isspace c).
  - destruct (key_spaces_value r) as [v'|].
    + intros H; injection H as ->. now apply occurs_cons, IH.
    + apply key_value_occurs.
  - apply key_value_occurs.
Qed.

(** The identifier, in its quotes, and the value of a key line stand in the
    line. *)
Lemma drop_prefix_occurs (s p : string) :
  Str.startswith s p = true -> occurs (Str.drop (String.length p) s) s.
Proof.
  intros H. apply startswith_split in H. rewrite H at 2. apply occurs_suffix.
Qed.

Lemma KEY_PATTERN_occurs (s id value : string) :
  KEY_PATTERN s = Some (id, value) ->
  occurs ("'" ++ id ++ "'") s /\ occurs value s.
Proof.
  unfold KEY_PATTERN.
  destruct (Str.startswith s "'") eqn:E0; [|discriminate].
  pose proof (drop_prefix_occurs _ _ E0) as O0.
  apply startswith_split in E0. cbn [String.length] in E0, O0.
  destruct (Str.span Chr.isdigit (Str.drop 1 s)) as [d r1] eqn:E1.
  apply span_split in E1. destruct d as [|c d']; [discriminate|].
  assert (O1 : occurs r1 (Str.drop 1 s)) by (rewrite E1; apply occurs_suffix).
  destruct (Str.startswith r1 "'") eqn:E2; [|discriminate].
  pose proof (drop_prefix_occurs _ _ E2) as O2.
  apply startswith_split in E2. cbn [String.length] in E2, O2.
  pose proof (lstrip_by_occurs Chr.isspace (Str.drop 1 r1)) as L.
  set (r2 := Str.lstrip_by Chr.isspace (Str.drop 1 r1)) in *.
  destruct (Str.startswith r2 ":") eqn:E3; [|discriminate].
  pose proof (drop_prefix_occurs _ _ E3) as O3. cbn [String.length] in O3.
  destruct (key_spaces_value (Str.drop 1 r2)) as [v|] eqn:E4; [|discriminate].
  apply key_spaces_value_occurs in E4.
  intros H; injection H as <- <-. split.
  - exists "", (Str.drop 1 r1). rewrite E0, E1, E2 at 1. now app_norm.
  - apply (occurs_trans _ _ _ E4). apply (occurs_trans _ _ _ O3).
    apply (occurs_trans _ _ _ L). apply (occurs_trans _ _ _ O2).
    apply (occurs_trans _ _ _ O1). exact O0.
Qed.

Lemma key_line_occurs (line key rest : string) :
  key_line line = Some (key, rest) ->
  occurs ("'" ++ key ++ "'") line /\ occurs rest line.
Proof.
  unfold key_line. destruct (KEY_PATTERN _) as [[k v]|] eqn:E; [|discriminate].
  intros H; injection H as <- <-.
  apply KEY_PATTERN_occurs in E as [Hk Hv]. split.
  - eapply occurs_trans; [exact Hk | apply rstrip_by_occurs].
  - eapply occurs_trans; [apply strip_occurs|].
    eapply occurs_trans; [apply rstrip_by_occurs|].
    eapply occurs_trans; [exact Hv | apply rstrip_by_occurs].
Qed.

(** ** Nothing in the mapping is made up *)

Lemma dict_set_in (k : string) (v : list form) (d : dict)
      (k' : string) (v' : list form) :
  In (k', v') (dict_set k v d) -> (k', v') = (k, v) \/ In (k', v') d.
Proof.
  induction d as [|[k0 v0] d IH]; simpl.
  - intros [H|[]]; now left.
  - destruct (String.eqb k0 k); simpl; intros [H|H]; auto.
    destruct (IH H); auto.
Qed.

Lemma dict_set_from (text k : string) (v : list form) (d : dict) :
  occurs ("'" ++ k ++ "'") text -> forms_from text v -> dict_from text d ->
  dict_from text (dict_set k v d).
Proof.
  intros Hk Hv Hd k' fs H. apply dict_set_in in H as [H|H].
  - injection H as -> ->. now split.
  - now apply Hd.
Qed.

Lemma parse_forms_from (text s : string) :
  occurs s text -> forms_from text (parse_forms_from_text s).
Proof.
  intros Hs f Hf. apply parse_forms_occur in Hf as (t & Ht & Ho).
  exists t. split; [exact Ht | now apply (occurs_trans _ s)].
Qed.

Lemma forms_from_app (text : string) (a b : list form) :
  forms_from text a -> forms_from text b -> forms_from text (a ++ b)%list.
Proof. intros Ha Hb f H. apply in_app_or in H as [H|H]; auto. Qed.

Lemma process_line_from (text : string) (st : state) (raw_line : string) :
  occurs raw_line text -> state_from text st ->
  state_from text (process_line st raw_line).
Proof.
  intros Hl H. pose proof H as (He & Hc & Hf). unfold process_line.
  pose proof (occurs_trans _ _ _ (strip_occurs raw_line) Hl) as Hs.
  destruct (skipped _); [exact H|].
  destruct (current_id st) as [id|] eqn:Ec.
  - destruct (Str.startswith _ "]"); unfold state_from; cbn [entries current_id current_forms].
    + split; [apply dict_set_from; auto|].
      split; [discriminate | intros f []].
    + split; [exact He|]. split; [exact Hc|].
      apply forms_from_app; [exact Hf | now apply parse_forms_from].
  - destruct (key_line _) as [[key rest]|] eqn:Ek; [|exact H].
    apply key_line_occurs in Ek as [Hk Hr].
    pose proof (occurs_trans _ _ _ Hk Hs) as Hk'.
    pose proof (occurs_trans _ _ _ Hr Hs) as Hr'.
    destruct (complete rest); unfold state_from; cbn [entries current_id current_forms].
    + split; [apply dict_set_from; auto; now apply parse_forms_from|].
      split; [discriminate | exact Hf].
    + split; [exact He|]. split.
      * intros id E. now injection E as <-.
      * destruct (negb _ && negb _); [now apply parse_forms_from | intros f []].
Qed.

Lemma run_from (text : string) (lines : list string) (st : state) :
  (forall l, In l lines -> occurs l text) -> state_from text st ->
  state_from text (run st lines).
Proof.
  revert st; induction lines as [|l lines IH]; intros st Hl H; [exact H|].
  apply IH; [intros; apply Hl; now right|].
  apply process_line_from; [apply Hl; now left | exact H].
Qed.

Lemma parse_lines_from (text : string) : dict_from text (parse_lines text).
Proof.
  unfold parse_lines, finish.
  destruct (run_from text (Str.splitlines text) initial) as (He & Hc & Hf).
  { intros l. apply splitlines_occurs. }
  { split; [intros k fs [] | split; [discriminate | intros f []]]. }
  destruct (current_id _) as [id|] eqn:E; [|exact He].
  apply dict_set_from; auto.
Qed.

(** ** A block from its key line to its closing bracket *)

Lemma endswith_app_r (a s p : string) :
  Str.endswith s p = true -> Str.endswith (a ++ s) p = true.
Proof.
  intros H. induction a as [|c a IH]; [exact H|].
  change (String c a ++ s) with (String c (a ++ s)).
  cbn [Str.endswith]. rewrite IH. apply orb_true_r.
Qed.

Lemma endswith_char_unique (s : string) (a b : ascii) :
  Str.endswith s (String a "") = true ->
  Str.endswith s (String b "") = true -> a = b.
Proof.
  induction s as [|c r IH]; [discriminate|].
  destruct r as [|d r'].
  - cbn [Str.endswith]. rewrite !orb_false_r.
    intros Ha Hb. apply String.eqb_eq in Ha, Hb. congruence.
  - rewrite (endswith_cons_char c a), (endswith_cons_char c b)
      by discriminate.
    exact IH.
Qed.

Lemma key_line_block_line (lead id ws1 ws2 value trail : string) :
  all_chars Chr.isspace (lead ++ ws1 ++ ws2 ++ trail) = true ->
  id <> "" -> all_chars Chr.isdigit id = true ->
  starts_outside Chr.isspace value -> no_linebreak value = true ->
  Str.endswith value "[" = true ->
  key_line (Str.strip (block_line lead id ws1 ws2 value trail))
  = Some (id, value).
Proof.
  intros Hw Hid Hd Hs Hn He. rewrite !all_chars_app in Hw.
  apply andb_true_iff in Hw as [Hl Hw].
  apply andb_true_iff in Hw as [H1 Hw].
  apply andb_true_iff in Hw as [H2 Ht].
  unfold block_line.
  replace (lead ++ "'" ++ id ++ "'" ++ ws1 ++ ":" ++ ws2 ++ value ++ trail)
    with (lead ++ ("'" ++ id ++ "'" ++ ws1 ++ ":" ++ ws2 ++ value) ++ trail)
    by (now app_norm).
  assert (E : Str.endswith ("'" ++ id ++ "'" ++ ws1 ++ ":" ++ ws2 ++ value) "["
              = true).
  { replace ("'" ++ id ++ "'" ++ ws1 ++ ":" ++ ws2 ++ value)
      with (("'" ++ id ++ "'" ++ ws1 ++ ":" ++ ws2) ++ value)
      by (now app_norm).
    now apply endswith_app_r. }
  rewrite (strip_around _ _ _ "'" "["); try reflexivity; try assumption.
  unfold key_line, Str.rstrip_commas.
  rewrite (rstrip_by_fixed _ _ "[" E eq_refl).
  assert (Hv : value <> "") by (intros ->; discriminate).
  rewrite (KEY_PATTERN_parts id ws1 ws2 value) by assumption.
  rewrite (rstrip_by_fixed _ _ "[" He eq_refl).
  destruct value as [|a r]; [congruence|]. cbn [starts_outside] in Hs.
  rewrite (strip_fixed (String a r) a "["); try reflexivity; try assumption.
  cbn [Str.startswith]. now rewrite Ascii.eqb_refl.
Qed.

Lemma complete_open (value : string) :
  Str.endswith value "[" = true -> complete value = false.
Proof.
  intros He. unfold complete.
  destruct (Str.endswith value "]") eqn:E.
  - pose proof (endswith_char_unique _ _ _ He E). discriminate.
  - now rewrite andb_false_r.
Qed.

Lemma startswith_not_skipped (line : string) :
  Str.startswith line "]" = true -> skipped line = false.
Proof.
  destruct line as [|c r]; [discriminate|]. simpl. rewrite andb_true_r.
  intros H. apply Ascii.eqb_eq in H. now subst c.
Qed.

Lemma process_line_close (st : state) (raw_line id : string) :
  current_id st = Some id ->
  Str.startswith (Str.strip raw_line) "]" = true ->
  process_line st raw_line =
    {| entries := dict_set id (current_forms st) (entries st);
       current_id := None;
       current_forms := [] |}.
Proof.
  intros Hc Hb. unfold process_line.
  now rewrite (startswith_not_skipped _ Hb), Hc, Hb.
Qed.

(** ** A key line inside a block *)

Lemma findall_skip (p x : string) :
  all_chars (Chr.except "[") p = true ->
  Re.findall FORM_PATTERN (p ++ x) = Re.findall FORM_PATTERN x.
Proof.
  induction p as [|c r IH]; intros H; [reflexivity|].
  simpl in H. apply andb_true_iff in H as [Hc Hr].
  change (String c r ++ x) with (String c (r ++ x)).
  rewrite findall_pass; [now apply IH|].
  cbn [Str.startswith]. unfold Chr.except in Hc.
  apply negb_true_iff in Hc. now rewrite Hc.
Qed.

Lemma findall_none (p : string) :
  all_chars (Chr.except "[") p = true -> Re.findall FORM_PATTERN p = [].
Proof.
  intros H. rewrite <- (append_nil_r p). now rewrite findall_skip.
Qed.

Lemma findall_tuples_then (fs : list form) (tail : string) :
  Forall form_quote_free fs ->
  Re.findall FORM_PATTERN (tuples_text fs ++ "]" ++ tail)
  = (fs ++ Re.findall FORM_PATTERN tail)%list.
Proof.
  induction fs as [|f fs IH]; intros H.
  - cbn [tuples_text]. change ("" ++ "]" ++ tail) with (String "]" tail).
    now rewrite findall_pass.
  - inversion H as [|x l Hf Hfs]; subst. specialize (IH Hfs).
    destruct fs as [|g fs].
    + cbn [tuples_text]. rewrite findall_tuple by exact Hf.
      cbn [tuples_text] in IH. change ("" ++ "]" ++ tail) with ("]" ++ tail) in IH.
      now rewrite IH.
    + change (tuples_text (f :: g :: fs))
        with (tuple_text f ++ ", " ++ tuples_text (g :: fs)).
      replace ((tuple_text f ++ ", " ++ tuples_text (g :: fs)) ++ "]" ++ tail)
        with (tuple_text f ++ ", " ++ tuples_text (g :: fs) ++ "]" ++ tail)
        by (now rewrite !append_assoc).
      rewrite findall_tuple by exact Hf.
      change (", " ++ tuples_text (g :: fs) ++ "]" ++ tail)
        with (String "," (String " " (tuples_text (g :: fs) ++ "]" ++ tail))).
      rewrite !findall_pass; [now rewrite IH | | reflexivity].
      pose proof (tuples_text_head (g :: fs) tail) as E.
      remember (tuples_text (g :: fs) ++ "]" ++ tail) as X eqn:HX. clear HX.
      destruct X as [|c X']; [reflexivity|].
      cbn [Str.startswith] in *. now rewrite E, andb_false_r.
Qed.

Lemma findall_value_then (fs : list form) (tail : string) :
  Forall form_quote_free fs ->
  all_chars (Chr.except "[") tail = true ->
  Re.findall FORM_PATTERN (value_text fs ++ tail) = fs.
Proof.
  intros H Ht. unfold value_text.
  replace (("[" ++ tuples_text fs ++ "]") ++ tail)
    with (String "[" (tuples_text fs ++ "]" ++ tail))
    by (now app_norm).
  rewrite findall_pass.
  - rewrite (findall_tuples_then fs tail H), (findall_none tail Ht).
    apply app_nil_r.
  - pose proof (tuples_text_head fs tail) as E.
    remember (tuples_text fs ++ "]" ++ tail) as X eqn:HX. clear HX.
    destruct X as [|c X']; [reflexivity|].
    cbn [Str.startswith] in *. now rewrite E, andb_false_r.
Qed.

Lemma digits_no_bracket (s : string) :
  all_chars Chr.isdigit s = true -> all_chars (Chr.except "[") s = true.
Proof.
  apply all_chars_impl. intros c Hc. unfold Chr.except. apply negb_true_iff.
  destruct (Ascii.eqb_spec c "[") as [->|]; [discriminate | reflexivity].
Qed.

Lemma space_no_bracket (s : string) :
  all_chars Chr.isspace s = true -> all_chars (Chr.except "[") s = true.
Proof.
  apply all_chars_impl. intros c Hc. unfold Chr.except. apply negb_true_iff.
  destruct (Ascii.eqb_spec c "[") as [->|]; [discriminate | reflexivity].
Qed.

(** ** The sample listing *)

Lemma int_of_digits_value (m : nat) (s : string) (n : N) :
  int_of_digits m s = Some n -> n = decimal 0 s.
Proof.
  unfold int_of_digits. destruct (_ && _); [|discriminate].
  destruct (_ && _); [discriminate|]. now intros [= <-].
Qed.

Lemma int_of_digits_short (m : nat) (s : string) :
  digit_string s -> String.length s <= 640 ->
  int_of_digits m s = Some (decimal 0 s).
Proof.
  intros [Hs Hd] Hl. unfold int_of_digits.
  apply String.eqb_neq in Hs. rewrite Hs, Hd. simpl.
  replace (Nat.ltb 640 (String.length s)) with false; [reflexivity|].
  symmetry. apply Nat.ltb_ge. exact Hl.
Qed.

Lemma keyed_spec (m : nat) (d : dict) (l : list (N * item)) :
  keyed m d = Some l ->
  map snd l = d /\ Forall (fun x => fst x = item_number (snd x)) l.
Proof.
  revert l; induction d as [|it d IH]; intros l H; simpl in H.
  - injection H as <-. split; constructor.
  - destruct (int_of_digits m (fst it)) as [n|] eqn:E; [|discriminate].
    destruct (keyed m d) as [l'|]; [|discriminate].
    injection H as <-. destruct (IH _ eq_refl) as [H1 H2]. split.
    + simpl. now rewrite H1.
    + constructor; [|exact H2]. simpl. exact (int_of_digits_value _ _ _ E).
Qed.

Lemma keyed_defined (m : nat) (d : dict) :
  Forall (fun kv => digit_string (fst kv) /\ String.length (fst kv) <= 640) d ->
  exists l, keyed m d = Some l.
Proof.
  induction 1 as [|it d [Hd Hl] _ [l IH]]; [now exists []|].
  simpl. rewrite (int_of_digits_short m _ Hd Hl), IH. now eexists.
Qed.

Lemma insert_by_key_perm (x : N * item) (l : list (N * item)) :
  Permutation (x :: l) (insert_by_key x l).
Proof.
  induction l as [|y l IH]; simpl; [reflexivity|].
  destruct (N.leb (fst x) (fst y)); [reflexivity|].
  rewrite perm_swap. now constructor.
Qed.

Lemma sort_by_key_perm (l : list (N * item)) : Permutation l (sort_by_key l).
Proof.
  induction l as [|x l IH]; simpl; [constructor|].
  rewrite <- insert_by_key_perm. now constructor.
Qed.

Lemma insert_by_key_sorted (x : N * item) (l : list (N * item)) :
  StronglySorted key_le l -> StronglySorted key_le (insert_by_key x l).
Proof.
  induction 1 as [|y l Hs IH Hy]; simpl; [repeat constructor|].
  destruct (N.leb (fst x) (fst y)) eqn:E.
  - apply N.leb_le in E. constructor; [now constructor|].
    constructor; [exact E|]. eapply Forall_impl; [|exact Hy].
    intros z Hz. unfold key_le in *. lia.
  - apply N.leb_gt in E. constructor; [exact IH|].
    eapply Permutation_Forall; [apply insert_by_key_perm|].
    constructor; [unfold key_le; lia | exact Hy].
Qed.

Lemma sort_by_key_sorted (l : list (N * item)) :
  StronglySorted key_le (sort_by_key l).
Proof.
  induction l as [|x l IH]; simpl; [constructor|].
  now apply insert_by_key_sorted.
Qed.

(** Stability: the items of one key keep their order. *)
Lemma insert_by_key_filter (n : N) (x : N * item) (l : list (N * item)) :
  StronglySorted key_le l ->
  filter (fun y => N.eqb (fst y) n) (insert_by_key x l)
  = filter (fun y => N.eqb (fst y) n) (x :: l).
Proof.
  induction 1 as [|y l Hs IH Hy]; [reflexivity|].
  cbn [insert_by_key]. destruct (N.leb (fst x) (fst y)) eqn:E; [reflexivity|].
  apply N.leb_gt in E.
  cbn [filter] in *. rewrite IH.
  destruct (N.eqb_spec (fst x) n) as [Ex|Ex]; [|reflexivity].
  destruct (N.eqb_spec (fst y) n) as [Ey|Ey]; [lia | reflexivity].
Qed.

Lemma sort_by_key_filter (n : N) (l : list (N * item)) :
  filter (fun y => N.eqb (fst y) n) (sort_by_key l)
  = filter (fun y => N.eqb (fst y) n) l.
Proof.
  induction l as [|x l IH]; [reflexivity|].
  cbn [sort_by_key fold_right]. fold (sort_by_key l).
  rewrite insert_by_key_filter by apply sort_by_key_sorted.
  cbn [filter]. now rewrite IH.
Qed.

Lemma keyed_sorted_numbers (l : list (N * item)) :
  Forall (fun x => fst x = item_number (snd x)) l ->
  StronglySorted key_le l -> StronglySorted number_le (map snd l).
Proof.
  intros Hk Hs. induction Hs as [|x l Hs IH Hx]; [constructor|].
  inversion Hk as [|x' l' Ex Hl]; subst. simpl. constructor; [now apply IH|].
  rewrite Forall_map. rewrite Forall_forall in *. intros y Hy.
  unfold number_le. specialize (Hx y Hy). unfold key_le in Hx.
  rewrite <- Ex, <- (Hl y Hy). exact Hx.
Qed.

Lemma keyed_filter_numbers (n : N) (l : list (N * item)) :
  Forall (fun x => fst x = item_number (snd x)) l ->
  filter (fun it => N.eqb (item_number it) n) (map snd l)
  = map snd (filter (fun x => N.eqb (fst x) n) l).
Proof.
  induction 1 as [|x l Ex _ IH]; [reflexivity|].
  simpl. rewrite <- Ex, IH. now destruct (N.eqb (fst x) n).
Qed.

Lemma sorted_items_keyed (m : nat) (d : dict) (its : list item) :
  sorted_items m d = Some its ->
  exists l,
    its = map snd (sort_by_key l) /\ map snd l = d
    /\ Forall (fun x => fst x = item_number (snd x)) l
    /\ Forall (fun x => fst x = item_number (snd x)) (sort_by_key l).
Proof.
  unfold sorted_items. destruct (keyed m d) as [l|] eqn:E; [|discriminate].
  intros H; injection H as <-. destruct (keyed_spec _ _ _ E) as [Hd Hk].
  exists l. repeat split; try assumption.
  eapply Permutation_Forall; [apply sort_by_key_perm | exact Hk].
Qed.

Lemma sorted_items_perm (m : nat) (d : dict) (its : list item) :
  sorted_items m d = Some its -> Permutation d its.
Proof.
  intros H. destruct (sorted_items_keyed _ _ _ H) as (l & -> & <- & _).
  apply Permutation_map, sort_by_key_perm.
Qed.

Lemma sorted_items_sorted (m : nat) (d : dict) (its : list item) :
  sorted_items m d = Some its -> StronglySorted number_le its.
Proof.
  intros H. destruct (sorted_items_keyed _ _ _ H) as (l & -> & _ & _ & Hk).
  apply keyed_sorted_numbers; [exact Hk | apply sort_by_key_sorted].
Qed.

Lemma sorted_firstn_skipn (its : list item) (k : nat) :
  StronglySorted number_le its ->
  forall x y, In x (firstn k its) -> In y (skipn k its) -> number_le x y.
Proof.
  intros Hs. revert k. induction Hs as [|z its Hs IH Hz]; intros k x y Hx Hy.
  - destruct k; contradiction.
  - destruct k as [|k]; [contradiction|]. simpl in Hx, Hy.
    destruct Hx as [<-|Hx].
    + rewrite Forall_forall in Hz. apply Hz.
      rewrite <- (firstn_skipn k its). apply in_or_app. now right.
    + now apply (IH k).
Qed.

(** ** The summary *)

Lemma total_forms_names (d : dict) :
  total_forms d = List.length (form_names d).
Proof.
  unfold total_forms, form_names. induction d as [|kv d IH]; [reflexivity|].
  simpl. now rewrite length_app, length_map, IH.
Qed.

Lemma first_longest_bounds (r : string) (l : list string) :
  first_longest r l ->
  In r l /\ forall x, In x l -> String.length x <= String.length r.
Proof.
  intros (l1 & l2 & -> & H1 & H2). split.
  - apply in_or_app. right. now left.
  - intros x Hx. rewrite Forall_forall in H1, H2.
    apply in_app_or in Hx as [Hx|[<-|Hx]];
      [specialize (H1 x Hx); lia | lia | exact (H2 x Hx)].
Qed.

Lemma filter_all {A : Type} (l : list A) : filter (fun _ => true) l = l.
Proof. induction l as [|x l IH]; [reflexivity|]. simpl. now rewrite IH. Qed.

(** * Further properties *)

(** X1.  On a text of the model, whose characters are code points up to
    U+00FF, every identifier of the resulting mapping is a non-empty run of
    the digits 0 to 9, which are the characters of the class [\d] in that
    range. *)
Theorem identifiers_are_digit_strings
        (raw k : string) (forms : list form) :
  In (k, forms) (parse_typescript_map raw) -> digit_string k.
Proof.
  intros H. pose proof (parse_lines_keys_digits (strip_comments raw)) as K.
  unfold keys_digits in K. rewrite Forall_forall in K. exact (K _ H).
Qed.

Lemma identifiers_are_digit_strings_example : digit_string "007".
Proof.
  apply (identifiers_are_digit_strings
           ("'007': [['a', 'b']]," ++ nl ++ "'x': [['c', 'd']],")
           "007" [("a", "b")]).
  simpl. now left.
Defined.

(** X2.  The entries of the resulting mapping stand in the order in which
    their identifiers are first written: an identifier written again keeps
    the place of its first write. *)
Theorem entries_in_first_write_order (raw : string) :
  map fst (parse_typescript_map raw) =
    first_occurrences
      (map fst (commits initial (Str.splitlines (strip_comments raw)))).
Proof.
  unfold parse_typescript_map, parse_lines.
  rewrite finish_run_commits, fold_commits_order. simpl. apply filter_all.
Qed.

(** X3.  Nothing in the resulting mapping is made up: every identifier
    stands in the text without its comments between quotes, and every form
    stands there as a bracketed pair of its two quoted fields, with at most
    white space around the comma and before the closing bracket. *)
Theorem entries_stand_in_text (raw k : string) (forms : list form) :
  In (k, forms) (parse_typescript_map raw) ->
  occurs ("'" ++ k ++ "'") (strip_comments raw)
  /\ (forall f, In f forms ->
        exists t, tuple_of f t /\ occurs t (strip_comments raw)).
Proof.
  intros H.
  destruct (parse_lines_from (strip_comments raw) k forms H) as [Hk Hf].
  split; [exact Hk | exact Hf].
Qed.

Lemma entries_stand_in_text_example :
  occurs "'12'"
    (strip_comments
       ("x /* '3': [['q', 'r']] */" ++ nl ++ "'12': [['a' ,'b']],")).
Proof.
  refine (proj1 (entries_stand_in_text
                   ("x /* '3': [['q', 'r']] */" ++ nl ++ "'12': [['a' ,'b']],")
                   "12" [("a", "b")] _)).
  simpl. now left.
Defined.

(** X4.  Every pair that [parse_forms_from_text] returns stands in its
    argument as a bracketed pair of two quoted fields, with at most white
    space around the comma and before the closing bracket. *)
Theorem extracted_forms_stand_in_text (text : string) (f : form) :
  In f (parse_forms_from_text text) ->
  exists t, tuple_of f t /\ occurs t text.
Proof.
  intros H. apply scan_from_match_at in H as (pre & suf & n & -> & Hm).
  apply FORM_PATTERN_text in Hm as (t & rest & Ht & ->).
  exists t. split; [exact Ht | now exists pre, rest].
Qed.

Lemma extracted_forms_stand_in_text_example :
  exists t, tuple_of ("b", "Bee") t /\ occurs t "['a'] ['b' ,  'Bee' ] x".
Proof.
  apply (extracted_forms_stand_in_text "['a'] ['b' ,  'Bee' ] x" ("b", "Bee")).
  simpl. now left.
Defined.

(** X5.  Round trip: from the text of a list of forms none of which holds a
    quote, [parse_forms_from_text] gets the list back, in its order, also
    when text without an opening bracket stands before and after it. *)
Theorem parse_forms_round_trip (before after : string) (fs : list form) :
  Forall form_quote_free fs ->
  all_chars (Chr.except "[") before = true ->
  all_chars (Chr.except "[") after = true ->
  parse_forms_from_text (before ++ value_text fs ++ after) = fs.
Proof.
  intros Hq Hb Ha. unfold parse_forms_from_text.
  rewrite findall_skip by exact Hb. now apply findall_value_then.
Qed.

Lemma parse_forms_round_trip_example :
  parse_forms_from_text
    ("'25': " ++ value_text [("", "Pikachu"); ("gmax", "G-Max [x]")] ++ ",")
  = [("", "Pikachu"); ("gmax", "G-Max [x]")].
Proof.
  apply parse_forms_round_trip; [|reflexivity|reflexivity].
  repeat constructor.
Defined.

(** X6.  A block: after a key line that ends with the opening bracket,
    lines none of which begins with a closing bracket, and a line that
    begins with one, the identifier is bound to the forms found in the value
    of the key line followed by the forms of the lines in between, taken in
    order and without those of the lines the loop passes over, and the
    parser is outside a block again with nothing gathered.  When the value
    is the opening bracket alone the forms are those of the lines in
    between.  What follows the closing bracket on its line is not read. *)
Theorem block_committed_at_closing_bracket
        (st : state) (lead id ws1 ws2 value trail close : string)
        (body : list string) :
  current_id st = None ->
  all_chars Chr.isspace (lead ++ ws1 ++ ws2 ++ trail) = true ->
  id <> "" -> all_chars Chr.isdigit id = true ->
  starts_outside Chr.isspace value -> no_linebreak value = true ->
  Str.endswith value "[" = true ->
  (forall l, In l body -> Str.startswith (Str.strip l) "]" = false) ->
  Str.startswith (Str.strip close) "]" = true ->
  run st (block_line lead id ws1 ws2 value trail :: body ++ [close]) =
    {| entries :=
         dict_set id (parse_forms_from_text value ++ block_forms body)%list
                  (entries st);
       current_id := None;
       current_forms := [] |}.
Proof.
  intros Hc Hw Hid Hd Hs Hn He Hb Hcl.
  pose proof (key_line_block_line lead id ws1 ws2 value trail
                Hw Hid Hd Hs Hn He) as Hk.
  cbn [run fold_left].
  rewrite (process_line_open st _ id value Hc (key_line_not_skipped _ _ _ Hk)
             Hk (complete_open _ He)).
  assert (F : (if negb (value =? "") && negb (value =? "[")
               then parse_forms_from_text value else [])
              = parse_forms_from_text value).
  { destruct (String.eqb_spec value "") as [->|_]; [reflexivity|].
    destruct (String.eqb_spec value "[") as [->|_]; reflexivity. }
  rewrite F.
  fold (run (State (entries st) (Some id) (parse_forms_from_text value))
            (body ++ [close])).
  rewrite run_app,
    (run_inside body (State (entries st) (Some id) (parse_forms_from_text value))
                id eq_refl Hb).
  cbn [run fold_left entries current_forms].
  now rewrite (process_line_close
                 (State (entries st) (Some id)
                        (parse_forms_from_text value ++ block_forms body))
                 close id eq_refl Hcl).
Qed.

Lemma block_committed_at_closing_bracket_example :
  run initial ["'7': ["; "  ['x', 'Ex'],"; "  // ['n', 'No'],";
               "  ['y', 'Why'],"; "], ['z', 'Zed']"]
  = {| entries := [("7", [("x", "Ex"); ("y", "Why")])];
       current_id := None;
       current_forms := [] |}
  /\ run initial ["'7': [['a', 'b'], ["; "  ['x', 'Ex'],"; "],"]
  = {| entries := [("7", [("a", "b"); ("x", "Ex")])];
       current_id := None;
       current_forms := [] |}.
Proof.
  split.
  - apply (block_committed_at_closing_bracket initial "" "7" "" " " "[" ""
             "], ['z', 'Zed']"
             ["  ['x', 'Ex'],"; "  // ['n', 'No'],"; "  ['y', 'Why'],"]);
      try reflexivity; try discriminate.
    intros l [<-|[<-|[<-|[]]]]; reflexivity.
  - apply (block_committed_at_closing_bracket initial "" "7" "" " "
             "[['a', 'b'], [" "" "],"
             ["  ['x', 'Ex'],"]);
      try reflexivity; try discriminate.
    intros l [<-|[]]; reflexivity.
Defined.

(** X7.  Inside a block a key line opens nothing: the line of a whole entry
    adds its forms to the open block, and the identifier it names gets no
    entry. *)
Theorem key_line_inside_block_joins_it
        (st : state) (open lead id ws1 ws2 ws3 trail : string)
        (fs : list form) (n : nat) :
  current_id st = Some open ->
  all_chars Chr.isspace (lead ++ ws1 ++ ws2 ++ ws3 ++ trail) = true ->
  all_chars Chr.isdigit id = true ->
  Forall form_quote_free fs ->
  process_line st (entry_line lead id ws1 ws2 (value_text fs) ws3 n trail) =
    {| entries := entries st;
       current_id := Some open;
       current_forms := (current_forms st ++ fs)%list |}.
Proof.
  intros Hc Hw Hd Hq. rewrite !all_chars_app in Hw.
  apply andb_true_iff in Hw as [Hlead Hw].
  apply andb_true_iff in Hw as [H1 Hw].
  apply andb_true_iff in Hw as [H2 Hw].
  apply andb_true_iff in Hw as [H3 Ht].
  assert (He : Str.endswith (value_text fs) "]" = true).
  { unfold value_text. rewrite <- append_assoc. apply endswith_app. }
  destruct (strip_entry_line lead id ws1 ws2 (value_text fs) ws3 trail n
              Hlead H3 Ht He) as (ws3' & Hs & Hws3).
  rewrite (process_line_inside st _ open Hc) by (now rewrite Hs).
  rewrite Hs. change (skipped ("'" ++ _)) with false. cbv iota.
  f_equal. f_equal.
  replace ("'" ++ id ++ "'" ++ ws1 ++ ":" ++ ws2 ++ value_text fs ++ ws3'
           ++ Str.repeat "," n)
    with (("'" ++ id ++ "'" ++ ws1 ++ ":" ++ ws2)
          ++ value_text fs ++ ws3' ++ Str.repeat "," n)
    by (now app_norm).
  rewrite findall_skip.
  - apply findall_value_then; [exact Hq|].
    rewrite all_chars_app. apply andb_true_iff. split.
    + destruct Hws3 as [-> | ->]; [reflexivity | now apply space_no_bracket].
    + now apply all_chars_repeat.
  - rewrite !all_chars_app. cbn [all_chars].
    now rewrite (digits_no_bracket _ Hd), (space_no_bracket _ H1),
      (space_no_bracket _ H2).
Qed.

Lemma key_line_inside_block_joins_it_example :
  parse_typescript_map
    ("'1': [" ++ nl ++ "['a', 'Ay']," ++ nl ++ "'2': [['b', 'Bee']],")
  = [("1", [("a", "Ay"); ("b", "Bee")])].
Proof.
  change (parse_typescript_map
            ("'1': [" ++ nl ++ "['a', 'Ay']," ++ nl ++ "'2': [['b', 'Bee']],"))
    with (finish (process_line
                    {| entries := []; current_id := Some "1";
                       current_forms := [("a", "Ay")] |}
                    (entry_line "" "2" "" " " (value_text [("b", "Bee")])
                                "" 1 ""))).
  rewrite (key_line_inside_block_joins_it
             {| entries := []; current_id := Some "1";
                current_forms := [("a", "Ay")] |}
             "1" "" "2" "" " " "" "" [("b", "Bee")] 1
             eq_refl eq_refl eq_refl).
  - reflexivity.
  - repeat constructor.
Defined.

(** X8.  The counts of the summary agree: the total of the forms is the
    number of the names among which the longest is sought; no name is longer
    than the longest name, and when there is a name the longest name is one
    of them. *)
Theorem summary_counts (d : dict) :
  total_forms d = List.length (form_names d)
  /\ (forall x, In x (form_names d) ->
        String.length x <= String.length (longest_name d))
  /\ (form_names d <> [] -> In (longest_name d) (form_names d)).
Proof.
  split; [apply total_forms_names|]. unfold longest_name.
  destruct (form_names d) as [|x xs]; [split; [intros y [] | congruence]|].
  destruct (first_longest_bounds _ _ (max_by_len_first x xs)) as [Hin Hle].
  split; [exact Hle | intros _; exact Hin].
Qed.

(** X9.  When the sort of the sample listing succeeds, the sorted items
    are the entries of the mapping, each once, in the order of the numbers
    their identifiers write (9 before 10, not the order of the texts), and
    entries whose identifiers write the same number keep the order they
    have in the mapping. *)
Theorem sample_sorted_by_number (m : nat) (d : dict) (its : list item) :
  sorted_items m d = Some its ->
  Permutation d its
  /\ StronglySorted number_le its
  /\ (forall n, filter (fun it => N.eqb (item_number it) n) its
                = filter (fun it => N.eqb (item_number it) n) d).
Proof.
  intros H. split; [exact (sorted_items_perm _ _ _ H)|].
  split; [exact (sorted_items_sorted _ _ _ H)|].
  destruct (sorted_items_keyed _ _ _ H) as (l & -> & <- & Hk & Hk').
  intros n. rewrite (keyed_filter_numbers n _ Hk'), sort_by_key_filter.
  now rewrite <- (keyed_filter_numbers n _ Hk).
Qed.

Lemma sample_sorted_by_number_example :
  Permutation [("10", []); ("9", []); ("07", [("a", "b")]); ("7", [])]
              [("07", [("a", "b")]); ("7", []); ("9", []); ("10", [])].
Proof.
  exact (proj1 (sample_sorted_by_number 4300
                  [("10", []); ("9", []); ("07", [("a", "b")]); ("7", [])]
                  [("07", [("a", "b")]); ("7", []); ("9", []); ("10", [])]
                  eq_refl)).
Defined.

(** X10.  With a positive [sample], the listing shows the first [sample] of
    the sorted items, all of them when there are fewer, and no entry left
    out has a smaller number than an entry shown. *)
Theorem sample_lists_smallest_numbers
        (m : nat) (d : dict) (sample : Z) (out : list item) :
  (0 < sample)%Z ->
  sample_entries m d sample = Some out ->
  exists its,
    sorted_items m d = Some its
    /\ out = firstn (Z.to_nat sample) its
    /\ List.length out = Nat.min (Z.to_nat sample) (List.length d)
    /\ (forall x y, In x out -> In y (skipn (Z.to_nat sample) its) ->
                    number_le x y).
Proof.
  intros Hs H. unfold sample_entries in H.
  apply Z.ltb_lt in Hs. rewrite Hs in H.
  destruct (sorted_items m d) as [its|] eqn:E; [|discriminate].
  injection H as <-. exists its.
  pose proof (sorted_items_perm _ _ _ E) as Hp.
  pose proof (sorted_items_sorted _ _ _ E) as Hsorted.
  repeat split.
  - rewrite length_firstn. now rewrite (Permutation_length Hp).
  - intros x y. now apply sorted_firstn_skipn.
Qed.

Lemma sample_lists_smallest_numbers_example :
  exists its,
    sorted_items 0 [("10", []); ("9", []); ("8", [])] = Some its
    /\ [("8", []); ("9", [])] = firstn (Z.to_nat 2) its
    /\ List.length [("8", @nil form); ("9", [])]
       = Nat.min (Z.to_nat 2) (List.length [("10", @nil form); ("9", []); ("8", [])])
    /\ (forall x y, In x [("8", []); ("9", [])] ->
                    In y (skipn (Z.to_nat 2) its) -> number_le x y).
Proof.
  exact (sample_lists_smallest_numbers 0
           [("10", []); ("9", []); ("8", [])] 2 [("8", []); ("9", [])]
           eq_refl eq_refl).
Defined.

(** X11.  On the mapping parsed from a text whose identifiers have at most
    640 digits, the sample listing never fails, whatever limit the
    interpreter puts on the digits of an integer text: it prints nothing
    when [sample] is not positive, and else the heading and one line for
    each of the first [sample] entries. *)
Theorem sample_defined_on_parsed_text (m : nat) (raw : string) (sample : Z) :
  (forall k, In k (map fst (parse_typescript_map raw)) ->
             String.length k <= 640) ->
  exists out,
    sample_output m (parse_typescript_map raw) sample = Some out
    /\ List.length out =
       if (0 <? sample)%Z
       then S (Nat.min (Z.to_nat sample)
                       (List.length (parse_typescript_map raw)))
       else 0.
Proof.
  intros Hk.
  assert (K : exists l, keyed m (parse_typescript_map raw) = Some l).
  { apply keyed_defined.
    pose proof (parse_lines_keys_digits (strip_comments raw)) as D.
    unfold keys_digits in D. rewrite Forall_forall in *.
    intros kv Hin. split; [exact (D kv Hin)|].
    apply Hk. now apply in_map. }
  destruct K as [l El].
  unfold sample_output, sample_entries.
  destruct (0 <? sample)%Z; [|now exists []].
  assert (S : sorted_items m (parse_typescript_map raw)
              = Some (map snd (sort_by_key l))).
  { unfold sorted_items. now rewrite El. }
  rewrite S. simpl. eexists. split; [reflexivity|].
  pose proof (sorted_items_perm _ _ _ S) as Hp.
  simpl. rewrite length_map, length_firstn.
  now rewrite (Permutation_length Hp).
Qed.

Lemma sample_defined_on_parsed_text_example :
  exists out,
    sample_output 4300
      (parse_typescript_map ("'10': [['a', 'Ay']]," ++ nl ++ "'9': [],")) 5
    = Some out
    /\ List.length out = 3.
Proof.
  apply (sample_defined_on_parsed_text 4300
           ("'10': [['a', 'Ay']]," ++ nl ++ "'9': [],") 5).
  intros k [<-|[<-|[]]]; simpl; lia.
Defined.
